(* ===== verification/_CoqProject ===== *)
-Q . S2P
Prelude.v
NativeUI.v
Transitions.v
Observer.v
FirstScreen.v
Construction.v
Handlers.v
Events.v
Frame.v
Destructor.v
Spec.v
