(* ===== verification/Prelude.v ===== *)
(** * A verification development of MoSync's ScreenTransitionTest first screen

    The program.  [src/testPrograms/native_ui_lib/ScreenTransitionTest/
    Screens/FirstScreen.h] declares the class [ScreenTransitionTest::
    FirstScreen], the first screen of a NativeUI test application that
    shows the platform's screen transitions.  The class

    - is a NativeUI [Screen] and listens to its own button
      ([NativeUI::ButtonListener]) and list view
      ([NativeUI::ListViewListener]);
    - owns seven widgets: a vertical main layout, a title label, a
      horizontal list layout holding the list view of transitions and a
      horizontal footer layout holding the "start screen transition"
      button (fields [mMainLayout] .. [mScreenTransitionListView]);
    - keeps the previously selected list item [mPreviousItem] (a nullable
      pointer, used to reset its visual state), the selected index
      [mSelectedListItem] and the vector [mPlatformTransitions] of the
      transition codes available on the current platform;
    - maps a list index to a [MAWScreenTransitionType] through one lookup
      per platform ([getTransitionTypeForiOS], [...ForAndroid],
      [...ForWindows]) and reports the choice to its
      [FirstScreenObserver] when the button is clicked.

    Only the header is under [src/]; the method bodies (FirstScreen.cpp),
    the observer interface and the NativeUI toolkit are code of the
    repository that is not.  Their definitions below follow the header's
    declarations and doc comments and, where these say nothing, the spec;
    the manifest marks the latter [spec_modelled].

    Files and what they model.
    - [Prelude] (this file): a small state monad [St] with its notation
      (the toolkit calls thread the widget store), an integer-indexed
      list lookup [zlookup] (C++ [v[i]] with a bounds check), the hint
      databases [screen] (resolve) and [screen_rw] (rewrite) and the generic lemmas the components share.
    - [NativeUI]: the toolkit as far as the screen uses it.  The widget
      kinds of the header's forward declarations ([WidgetKind]); a widget
      store [NativeUIState] (a [gmap] from handles to [Widget] records,
      a handle counter, the device platform); the calls [widget_create]
      (maWidgetCreate), [widget_add_child] (maWidgetAddChild),
      [widget_set_property] (maWidgetSetProperty: text, highlight),
      [widget_set_listener]; the listener interfaces [ButtonListener]
      and [ListViewListener] as type classes; frame lemmas for each call.
    - [Transitions]: [MAWScreenTransitionType] (a C [int]), the
      platform's transition catalogue as a type class
      [TransitionCatalog] (names and codes per platform, and
      [MAW_TRANSITION_TYPE_NONE]), and [getTransitionTypeForiOS],
      [getTransitionTypeForAndroid], [getTransitionTypeForWindows].
    - [Observer]: [FirstScreenObserver] as a type class with one callback
      and a trace-recording instance.
    - [FirstScreen]: the class's state as the record [FirstScreen]; views
      of the store; the well-formedness invariant [screen_wf] of a screen
      and its store, decidable, and the store equivalence [ui_equiv]
      (equal up to highlights) under which its structural part is stable.
    - [Construction]: [createUI], [fillScreenTransitionContainer],
      [populateTransitionList] and the constructor [new_FirstScreen];
      the store they build, computed call by call.
    - [Handlers]: [buttonClicked], [listViewItemClicked_item] and
      [listViewItemClicked_index] (the two C++ overloads of
      [listViewItemClicked]), and their behaviour on a well-formed screen;
      [select_item], the state after a list click whichever overload
      runs first.
    - [Destructor]: [delete_FirstScreen] (~FirstScreen: the screen stops
      listening, then the [Screen] base destructor deletes the widget
      tree with the toolkit's recursive [widget_destroy] of [NativeUI]),
      and the whole life of a screen: construction, a run of events,
      destruction.
    - [Events]: the toolkit's delivery of clicks to the screen as a step
      relation [deliver] (a list click calls both overloads, in either
      order), the worlds [reachable] from construction, and the
      invariants of reachable worlds by rule induction; runs
      [deliver_run]; the screen's [ButtonListener] and
      [ListViewListener] instances.
    - [Frame]: the screen's footprint [owned] (its seven widgets and its
      items); other code's toolkit calls ([ToolkitCall], [run_call] of
      [NativeUI]) interleaved with delivered events ([step_mixed],
      [reachable_mixed]).
    - [Spec]: an abstract, executable specification of the screen
      ([spec_step], [spec_run]: select an entry, press to report its
      code) and the abstraction of screens and events into it.

    How the parts interact: [Construction] and [Handlers] change the
    widget store only through the [NativeUI] calls; the handlers read the
    catalogue only through the three [getTransitionTypeFor*] lookups of
    [Transitions] and report through the [FirstScreenObserver] class;
    every theorem is stated for any [TransitionCatalog] and any observer,
    and the examples fix a small catalogue [demo_catalog].

    Theorems, by group.
    - Lookup: each [getTransitionTypeFor*] returns the catalogue entry at
      an in-range index and [MAW_TRANSITION_TYPE_NONE] otherwise.
    - Construction: [new_FirstScreen] establishes [screen_wf]: the seven
      widgets exist with their kinds and are distinct, the list view holds
      one item per transition of the platform, labelled with its name, the
      container holds the platform's codes, both listeners are installed,
      no item is highlighted.
    - Handlers: each handler preserves [screen_wf]; the guards on the
      event's source make events of other widgets no-ops; selecting an
      item highlights exactly that item and un-highlights the previous
      one; the button reports to the observer exactly once, with the code
      shown on the selected item, and its per-platform lookup agrees with
      the container [mPlatformTransitions]; the index handler stores an
      out-of-range index unchecked, after which the button reports
      [MAW_TRANSITION_TYPE_NONE].
    - Reachable states (Events): by rule induction on [deliver], every
      reachable world satisfies [screen_wf]; a highlighted item is the
      item at the selected index; the button then reports the code paired
      with the name that item shows; the selected index stays within a
      non-empty list; with a recording observer each event adds at most
      one notification and a click on the button exactly one; exactly
      one item is highlighted once one was selected, none before; every
      pointer field refers to a live widget of its declared class;
      the list's texts and the container zip back to the catalogue;
      every catalogue entry can still be chosen and reported (liveness).
    - Destruction: with fuel at least the tree depth the destructor
      frees exactly the screen's widgets and items and nothing else;
      with one unit less it leaks the items.
    - Frame (Frame): the invariant survives other code's toolkit calls
      on widgets the screen does not own, interleaved with its events; a
      delivered event writes only the screen's own widgets; construction
      changes no existing widget and takes only free handles.
    - Lifecycle (Destructor): construct, run any events, destroy with
      enough fuel, and the widget store is exactly the map it was before;
      a destroyed screen is inert under every event the toolkit can still
      deliver.
    - Refinement (Spec): from construction, every run of delivered
      events is a run of the specification, and the observer receives
      exactly the specification's reports.

    Bounds.  Indices are C [int]s, modelled as [Z]; no arithmetic is done
    on them, so no wrap-around arises: the only range question is the
    vector lookup, modelled with an explicit bounds check ([zlookup]).
    The only definition by fuel is [widget_destroy]: the recursion
    follows the widget tree, which the store does not bound.  The tree
    the constructor builds has depth 5 ([FirstScreen_depth]: screen,
    main layout, list layout, list view, item), and the destructor
    theorems show that fuel 5 or more frees the whole tree while fuel 4
    does not, so 5 is both enough and needed.  Every other definition
    is structural.

    Not modelled: rendering, layout geometry, colours (a highlight flag
    stands for the background colour set on a selected item), texts of
    the title and the button (not given by the header or the spec), the
    second screen and the application that owns both screens (not under
    [src/]; their effect on the shared store is covered by arbitrary
    toolkit calls on widgets the screen does not own). *)

From stdpp Require Import base gmap strings list.
From Stdlib Require Import ZArith Lia.

#[local] Set Warnings "-clear-no-such-hyp".

(** ** A state monad for code that threads a store *)

Definition St (S A : Type) : Type := S -> A * S.

Definition st_ret {S A} (a : A) : St S A := fun s => (a, s).

Definition st_bind {S A B} (c : St S A) (k : A -> St S B) : St S B :=
  fun s => let '(a, s') := c s in k a s'.

Definition st_modify {S} (f : S -> S) : St S unit := fun s => (tt, f s).

Definition st_get {S} : St S S := fun s => (s, s).

(** Run a command for each element of a list, in order (a C++ [for] loop
    over a vector). *)
Fixpoint st_iter {S A} (f : A -> St S unit) (l : list A) : St S unit :=
  match l with
  | [] => st_ret tt
  | x :: l' => st_bind (f x) (fun _ => st_iter f l')
  end.

Declare Scope st_scope.
Delimit Scope st_scope with st.
Notation "'DO' x <- c ;; k" := (st_bind c (fun x => k))
  (at level 60, x name, c at next level, right associativity) : st_scope.
Notation "c ;;; k" := (st_bind c (fun _ => k))
  (at level 60, right associativity) : st_scope.

(** ** Integer-indexed lookup: [v[i]] on a vector with a bounds check *)

Definition zlookup {A} (l : list A) (i : Z) : option A :=
  if (0 <=? i)%Z then l !! Z.to_nat i else None.

(** The position of [x] in [l], if any (a linear search). *)
Fixpoint index_of `{EqDecision A} (x : A) (l : list A) : option nat :=
  match l with
  | [] => None
  | y :: l' => if decide (x = y) then Some 0 else S <$> index_of x l'
  end.

Create HintDb screen.
Create Rewrite HintDb screen_rw.

(** ** Generic lemmas *)

Section st_lemmas.
Context {S : Type}.

Lemma st_bind_ret_l {A B} (a : A) (k : A -> St S B) s :
  st_bind (st_ret a) k s = k a s.
Proof. reflexivity. Qed.

Lemma st_bind_assoc {A B C} (c : St S A) (k : A -> St S B) (k' : B -> St S C) s :
  st_bind (st_bind c k) k' s = st_bind c (fun a => st_bind (k a) k') s.
Proof. unfold st_bind. by destruct (c s). Qed.

Lemma st_bind_eq {A B} (c : St S A) (k : A -> St S B) s :
  st_bind c k s = k (fst (c s)) (snd (c s)).
Proof. unfold st_bind. by destruct (c s). Qed.

(** A command whose value is [tt] passes its final state on. *)
Lemma st_bind_unit {B} (c : St S unit) (k : unit -> St S B) s :
  st_bind c k s = k tt (snd (c s)).
Proof. unfold st_bind. by destruct (c s) as [[] s']. Qed.

(** A property of the store kept by every step of an iteration is kept
    by the iteration. *)
Lemma st_iter_preserve {A} (P : S -> Prop) (f : A -> St S unit) l s :
  (forall x s, x ∈ l -> P s -> P (snd (f x s))) ->
  P s -> P (snd (st_iter f l s)).
Proof.
  revert s. induction l as [|x l IH]; intros s Hf Hs; [done|].
  simpl. unfold st_bind. destruct (f x s) as [[] s'] eqn:E.
  apply IH; [intros; apply Hf; [by right|done]|].
  replace s' with (snd (f x s)) by (by rewrite E). apply Hf; [left|done].
Qed.
End st_lemmas.

Section zlookup_lemmas.
Context {A : Type}.

Lemma zlookup_Some (l : list A) i x :
  zlookup l i = Some x -> (0 <= i < Z.of_nat (length l))%Z /\ l !! Z.to_nat i = Some x.
Proof.
  unfold zlookup. destruct (Z.leb_spec 0 i); [|done].
  intros Hl. split; [|done]. apply lookup_lt_Some in Hl. lia.
Qed.

Lemma zlookup_None (l : list A) i :
  zlookup l i = None <-> (i < 0 \/ Z.of_nat (length l) <= i)%Z.
Proof.
  unfold zlookup. destruct (Z.leb_spec 0 i).
  - rewrite lookup_ge_None. lia.
  - split; [lia|done].
Qed.

Lemma zlookup_in_range (l : list A) i :
  (0 <= i < Z.of_nat (length l))%Z -> exists x, zlookup l i = Some x.
Proof.
  intros Hi. destruct (zlookup l i) eqn:E; [by eexists|].
  apply zlookup_None in E. lia.
Qed.

Lemma zlookup_nonneg (l : list A) i : (0 <= i)%Z -> zlookup l i = l !! Z.to_nat i.
Proof. intros Hi. unfold zlookup. by destruct (Z.leb_spec 0 i); [|lia]. Qed.

Lemma zlookup_of_nat (l : list A) (n : nat) : zlookup l (Z.of_nat n) = l !! n.
Proof.
  unfold zlookup. rewrite Nat2Z.id.
  destruct (Z.leb_spec 0 (Z.of_nat n)); [done|lia].
Qed.

Lemma zlookup_fmap {B} (f : A -> B) (l : list A) i :
  zlookup (f <$> l) i = f <$> zlookup l i.
Proof. unfold zlookup. destruct (0 <=? i)%Z; [apply list_lookup_fmap|done]. Qed.

Lemma zlookup_elem (l : list A) i x : zlookup l i = Some x -> x ∈ l.
Proof. intros [_ Hl]%zlookup_Some. by eapply list_elem_of_lookup_2. Qed.
End zlookup_lemmas.

Section index_of_lemmas.
Context `{EqDecision A}.

Lemma index_of_Some (x : A) l i : index_of x l = Some i -> l !! i = Some x.
Proof.
  revert i. induction l as [|y l IH]; intros i; simpl; [done|].
  case_decide as Hx; [intros [= <-]; by subst|].
  destruct (index_of x l) as [j|] eqn:E; simpl; [|done]. intros [= <-]. by apply IH.
Qed.

(** In a list without duplicates the search finds the position. *)
Lemma index_of_lookup (x : A) l i : NoDup l -> l !! i = Some x -> index_of x l = Some i.
Proof.
  revert i. induction l as [|y l IH]; intros i Hnd Hl; [done|].
  apply NoDup_cons in Hnd as [Hy Hnd]. destruct i as [|i]; simpl in *.
  - injection Hl as ->. by rewrite decide_True.
  - rewrite decide_False; [by rewrite (IH i Hnd Hl)|]. intros ->.
    by apply Hy, (list_elem_of_lookup_2 _ i).
Qed.
End index_of_lemmas.

(** [Forall2_impl] where the implication needs only the left elements
    that occur. *)
Lemma Forall2_impl_in {A B} (P Q : A -> B -> Prop) (l : list A) (k : list B) :
  (forall x y, x ∈ l -> P x y -> Q x y) -> Forall2 P l k -> Forall2 Q l k.
Proof.
  intros HPQ Hl. induction Hl as [|x y l k Hxy _ IH]; constructor.
  - apply HPQ; [by left|done].
  - apply IH. intros x' y' Hx'. apply HPQ. by right.
Qed.

(** In a list without duplicates, an element that occurs occurs once. *)
Lemma filter_eq_NoDup `{EqDecision A} (x : A) (l : list A) :
  NoDup l -> length (filter (fun y => y = x) l) = if decide (x ∈ l) then 1 else 0.
Proof.
  induction l as [|y l IH]; intros Hnd; [done|]. apply NoDup_cons in Hnd as [Hy Hnd].
  rewrite filter_cons. specialize (IH Hnd).
  destruct (decide (y = x)) as [->|Hne]; simpl.
  - rewrite IH, !decide_False by done. rewrite decide_True by by left. done.
  - rewrite IH. destruct (decide (x ∈ l)); rewrite ?decide_True, ?decide_False by set_solver; done.
Qed.

(** [filter] with two predicates that agree on the list's elements. *)
Lemma filter_ext_Forall {A} (P Q : A -> Prop) `{forall x, Decision (P x)}
    `{forall x, Decision (Q x)} (l : list A) :
  Forall (fun x => P x <-> Q x) l -> filter P l = filter Q l.
Proof.
  induction 1 as [|x l Hx _ IH]; [done|]. rewrite !filter_cons, IH.
  destruct (decide (P x)), (decide (Q x)); naive_solver.
Qed.

#[export] Hint Rewrite @st_bind_ret_l @st_bind_assoc @zlookup_fmap @zlookup_of_nat : screen_rw.
#[export] Hint Resolve zlookup_elem : screen.
