(* ===== verification/NativeUI.v ===== *)
(** * The NativeUI toolkit, as far as the first screen uses it

    The header [FirstScreen.h] forward-declares the NativeUI classes it
    uses ([Button], [Label], [VerticalLayout], [HorizontalLayout],
    [ListView], [ListViewItem]) and derives from [Screen],
    [ButtonListener] and [ListViewListener].  The toolkit itself is not
    under [src/]; it is modelled here only by the state and calls the
    screen relies on: a store of widgets indexed by handle (MoSync's
    widget handles; a C++ widget pointer is its handle, [NULL] is
    [None]), handle allocation ([maWidgetCreate]), adding a child
    ([maWidgetAddChild]), setting a property ([maWidgetSetProperty]: the
    text, and the background colour of a selected item as a highlight
    flag), and installing a listener on a widget.  A call on a handle
    that is not in the store changes nothing (the C API returns an error
    code that the C++ wrappers ignore). *)

From stdpp Require Import base gmap strings list.
From Stdlib Require Import ZArith Lia.
From S2P Require Import Prelude.

Local Open Scope st_scope.
#[local] Set Warnings "-clear-no-such-hyp".

(** ** Data *)

(** The mobile operating systems the test distinguishes. *)
Inductive Platform := iOS | Android | WindowsPhone.

#[export] Instance Platform_eq_dec : EqDecision Platform.
Proof. solve_decision. Defined.

(** The NativeUI classes the header names (the forward declarations and
    the [Screen] base class). *)
Inductive WidgetKind :=
  | Screen | Button | Label | VerticalLayout | HorizontalLayout
  | ListView | ListViewItem.

#[export] Instance WidgetKind_eq_dec : EqDecision WidgetKind.
Proof. solve_decision. Defined.

Abbreviation Handle := N.

Record Widget := mkWidget {
  w_kind : WidgetKind;
  w_children : list Handle;
  w_text : string;
  w_highlighted : bool;
  w_listener : bool
}.

Record NativeUIState := mkUI {
  ui_widgets : gmap Handle Widget;
  ui_next : Handle;
  ui_platform : Platform
}.

(** The widget properties the screen sets. *)
Inductive WidgetProperty :=
  | PropText (t : string)
  | PropHighlighted (b : bool).

(** Rewrite one widget of the store, if it exists. *)
Abbreviation ui_alter f h ui :=
  (mkUI (alter f h (ui_widgets ui)) (ui_next ui) (ui_platform ui)).

(** ** Calls *)

Definition widget_create (k : WidgetKind) : St NativeUIState Handle :=
  fun ui =>
    (ui_next ui,
     mkUI (<[ui_next ui := mkWidget k [] "" false false]> (ui_widgets ui))
          (ui_next ui + 1)%N (ui_platform ui)).

Definition widget_add_child (parent child : Handle) : St NativeUIState unit :=
  st_modify (fun ui =>
    ui_alter (fun w => mkWidget (w_kind w) (w_children w ++ [child]) (w_text w)
                                (w_highlighted w) (w_listener w)) parent ui).

Definition widget_set_property (h : Handle) (p : WidgetProperty)
    : St NativeUIState unit :=
  st_modify (fun ui =>
    ui_alter (fun w =>
      match p with
      | PropText t => mkWidget (w_kind w) (w_children w) t (w_highlighted w) (w_listener w)
      | PropHighlighted b => mkWidget (w_kind w) (w_children w) (w_text w) b (w_listener w)
      end) h ui).

Definition widget_set_listener (h : Handle) (b : bool) : St NativeUIState unit :=
  st_modify (fun ui =>
    ui_alter (fun w => mkWidget (w_kind w) (w_children w) (w_text w)
                                (w_highlighted w) b) h ui).

(** Deleting a widget ([NativeUI::Widget::~Widget]): its children are
    deleted in order, then its own handle is destroyed
    ([maWidgetDestroy]).  The recursion follows the widget tree, whose
    depth the store does not bound: [fuel] bounds it, and a call out of
    fuel does nothing.  Deleting a handle not in the store does nothing. *)
Fixpoint widget_destroy (fuel : nat) (h : Handle) : St NativeUIState unit :=
  match fuel with
  | O => st_ret tt
  | S f => fun ui =>
      match ui_widgets ui !! h with
      | None => (tt, ui)
      | Some w =>
          let ui' := snd (st_iter (widget_destroy f) (w_children w) ui) in
          (tt, mkUI (delete h (ui_widgets ui')) (ui_next ui') (ui_platform ui'))
      end
  end.

(** ** The listener interfaces the screen implements *)

(** [NativeUI::ButtonListener::buttonClicked(Widget* button)]: the
    listener's own state [L] is updated from the clicked button. *)
Class ButtonListener (L : Type) := {
  buttonClicked_cb : L -> Handle -> L
}.

(** [NativeUI::ListViewListener]: the two [listViewItemClicked]
    overloads, with the item and with its index. *)
Class ListViewListener (L : Type) := {
  listViewItemClicked_item_cb : L -> Handle -> Handle -> L;
  listViewItemClicked_index_cb : L -> Handle -> Z -> L
}.

(** A call other code (another screen, the application) makes on the
    toolkit, as data. *)
Inductive ToolkitCall :=
  | CallCreate (k : WidgetKind)
  | CallAddChild (parent child : Handle)
  | CallSetProperty (h : Handle) (p : WidgetProperty)
  | CallSetListener (h : Handle) (b : bool).

Definition run_call (c : ToolkitCall) : St NativeUIState unit :=
  match c with
  | CallCreate k => st_bind (widget_create k) (fun _ => st_ret tt)
  | CallAddChild p ch => widget_add_child p ch
  | CallSetProperty h p => widget_set_property h p
  | CallSetListener h b => widget_set_listener h b
  end.

(** The existing widget a call writes, if any. *)
Definition call_target (c : ToolkitCall) : option Handle :=
  match c with
  | CallCreate _ => None
  | CallAddChild p _ => Some p
  | CallSetProperty h _ | CallSetListener h _ => Some h
  end.

(** An empty store on iOS, used by the examples. *)
Definition demo_ui : NativeUIState := mkUI ∅ 1%N iOS.

(** ** Lemmas *)

(** The store never holds a handle at or above the counter. *)
Definition ui_fresh_ok (ui : NativeUIState) : Prop :=
  map_Forall (fun h _ => (h < ui_next ui)%N) (ui_widgets ui).

(** The children of a widget, if it is in the store. *)
Definition children_of (ui : NativeUIState) (h : Handle) : option (list Handle) :=
  w_children <$> ui_widgets ui !! h.

(** The handles a deletion with [fuel] visits: [h], then, if it is in the
    store, the subtrees of its children with one unit of fuel less. *)
Fixpoint subtree (fuel : nat) (ui : NativeUIState) (h : Handle) : list Handle :=
  match fuel with
  | O => []
  | S f => h :: match children_of ui h with
                | None => []
                | Some cs => mjoin (subtree f ui <$> cs)
                end
  end.

(** [ui'] is [ui] with the handles [D] removed, the counter and the
    platform unchanged. *)
Definition removes (D : list Handle) (ui ui' : NativeUIState) : Prop :=
  ui_next ui' = ui_next ui /\ ui_platform ui' = ui_platform ui /\
  forall x, ui_widgets ui' !! x = if decide (x ∈ D) then None else ui_widgets ui !! x.

Section calls.
Implicit Types ui : NativeUIState.

Lemma widget_create_handle k ui : fst (widget_create k ui) = ui_next ui.
Proof. reflexivity. Qed.

Lemma widget_create_fresh k ui :
  ui_fresh_ok ui -> ui_widgets ui !! fst (widget_create k ui) = None.
Proof.
  intros Hok. simpl. destruct (ui_widgets ui !! ui_next ui) eqn:E; [|done].
  apply Hok in E. lia.
Qed.

Lemma widget_create_lookup k ui h :
  ui_widgets (snd (widget_create k ui)) !! h =
    if decide (h = ui_next ui) then Some (mkWidget k [] "" false false)
    else ui_widgets ui !! h.
Proof. simpl. case_decide; subst; [by rewrite lookup_insert_eq|by rewrite lookup_insert_ne]. Qed.

Lemma widget_create_fresh_ok k ui :
  ui_fresh_ok ui -> ui_fresh_ok (snd (widget_create k ui)).
Proof.
  intros Hok. apply map_Forall_insert_2; simpl; [lia|].
  eapply map_Forall_impl; [done|]. intros h ? Hh. simpl in *. lia.
Qed.

Lemma widget_create_next k ui :
  ui_next (snd (widget_create k ui)) = (ui_next ui + 1)%N.
Proof. reflexivity. Qed.

Lemma widget_alter_fresh_ok f h ui : ui_fresh_ok ui -> ui_fresh_ok (ui_alter f h ui).
Proof.
  intros Hok h' w'. simpl. rewrite lookup_alter. case_decide; subst.
  - intros (w&Hw&_)%fmap_Some. by eapply Hok.
  - by apply Hok.
Qed.

Lemma widget_add_child_lookup p c ui h :
  ui_widgets (snd (widget_add_child p c ui)) !! h =
    if decide (h = p)
    then (fun w => mkWidget (w_kind w) (w_children w ++ [c]) (w_text w)
                            (w_highlighted w) (w_listener w)) <$> ui_widgets ui !! h
    else ui_widgets ui !! h.
Proof. simpl. rewrite lookup_alter. by repeat case_decide; subst. Qed.

Lemma widget_set_property_lookup h0 p ui h :
  ui_widgets (snd (widget_set_property h0 p ui)) !! h =
    if decide (h = h0)
    then (fun w => match p with
           | PropText t => mkWidget (w_kind w) (w_children w) t (w_highlighted w) (w_listener w)
           | PropHighlighted b => mkWidget (w_kind w) (w_children w) (w_text w) b (w_listener w)
           end) <$> ui_widgets ui !! h
    else ui_widgets ui !! h.
Proof. simpl. rewrite lookup_alter. by repeat case_decide; subst. Qed.

Lemma widget_set_listener_lookup h0 b ui h :
  ui_widgets (snd (widget_set_listener h0 b ui)) !! h =
    if decide (h = h0)
    then (fun w => mkWidget (w_kind w) (w_children w) (w_text w) (w_highlighted w) b)
           <$> ui_widgets ui !! h
    else ui_widgets ui !! h.
Proof. simpl. rewrite lookup_alter. by repeat case_decide; subst. Qed.
End calls.

#[export] Hint Resolve widget_create_fresh_ok widget_alter_fresh_ok : screen.
#[export] Hint Rewrite widget_create_lookup widget_add_child_lookup
  widget_set_property_lookup widget_set_listener_lookup : screen_rw.

(** A handle at or above the counter is not in the store. *)
Lemma fresh_lookup_None ui h :
  ui_fresh_ok ui -> (ui_next ui <= h)%N -> ui_widgets ui !! h = None.
Proof.
  intros Hok Hh. destruct (ui_widgets ui !! h) eqn:E; [|done]. apply Hok in E. lia.
Qed.

(** Simplify a lookup through inserts and alters whose keys are decided
    by arithmetic on handles. *)
Ltac lookup_simpl :=
  repeat match goal with
  | |- context [ <[?i:=?x]> ?m !! ?j ] =>
      first [ rewrite (lookup_insert_ne m i j x) by lia
            | replace j with i by lia; rewrite (lookup_insert_eq m i x) ]
  | |- context [ alter ?f ?i ?m !! ?j ] =>
      first [ rewrite (lookup_alter_ne f m i j) by lia
            | replace j with i by lia; rewrite (lookup_alter_eq f m i) ]
  end.

(** Decide the [decide]s of a goal by arithmetic. *)
Ltac decide_simpl :=
  repeat first [ rewrite decide_True by lia | rewrite decide_False by lia ].

Lemma widget_set_listener_fresh_ok h b ui :
  ui_fresh_ok ui -> ui_fresh_ok (snd (widget_set_listener h b ui)).
Proof. apply widget_alter_fresh_ok. Qed.

(** ** Deleting a widget tree *)

Lemma removes_app D1 D2 ui ui1 ui2 :
  removes D1 ui ui1 -> removes D2 ui1 ui2 -> removes (D1 ++ D2) ui ui2.
Proof.
  intros (?&?&H1) (?&?&H2). split_and!; [congruence|congruence|]. intros x.
  rewrite H2, H1. destruct (decide (x ∈ D1 ++ D2)) as [Hx|Hx]; rewrite elem_of_app in Hx;
    repeat case_decide; naive_solver.
Qed.

(** The subtree depends only on the children of the handles it visits. *)
Lemma subtree_agree f ui ui' h :
  (forall x, x ∈ subtree f ui h -> children_of ui' x = children_of ui x) ->
  subtree f ui' h = subtree f ui h.
Proof.
  revert h. induction f as [|f IH]; intros h Hag; [done|]. simpl.
  rewrite (Hag h) by by left. f_equal. destruct (children_of ui h) as [cs|] eqn:E; [|done].
  f_equal. apply list_fmap_ext. intros i c Hc. apply IH. intros x Hx. apply Hag.
  simpl. rewrite E. right. apply list_elem_of_join. exists (subtree f ui c).
  split; [done|]. apply list_elem_of_fmap_2, (list_elem_of_lookup_2 _ i), Hc.
Qed.

Lemma removes_children_of D ui ui' x :
  removes D ui ui' -> x ∉ D -> children_of ui' x = children_of ui x.
Proof. intros (_&_&Hl) Hx. unfold children_of. rewrite Hl. by case_decide. Qed.

Section destroy.
Variable f : nat.
Hypothesis IH : forall h ui, NoDup (subtree f ui h) ->
  removes (subtree f ui h) ui (snd (widget_destroy f h ui)).

(** Deleting the children in order removes their subtrees, which are
    disjoint, so that deleting one leaves the next one's subtree intact. *)
Lemma st_iter_destroy cs ui :
  NoDup (mjoin (subtree f ui <$> cs)) ->
  removes (mjoin (subtree f ui <$> cs)) ui (snd (st_iter (widget_destroy f) cs ui)).
Proof.
  revert ui. induction cs as [|c cs IHcs]; intros ui Hnd.
  - split_and!; [done|done|]. intros x. by rewrite decide_False by set_solver.
  - rewrite fmap_cons in *. change (mjoin (?a :: ?b)) with (a ++ mjoin b) in *.
    cbn [st_iter]. rewrite st_bind_unit. apply NoDup_app in Hnd as (Hc&Hdisj&Hcs).
    pose proof (IH c ui Hc) as Hr.
    assert (subtree f (snd (widget_destroy f c ui)) <$> cs = subtree f ui <$> cs) as Heq.
    { apply list_fmap_ext. intros i c' Hc'. apply subtree_agree. intros x Hx.
      eapply removes_children_of; [done|]. intros Hin. apply (Hdisj x Hin).
      apply list_elem_of_join. exists (subtree f ui c'). split; [done|].
      apply list_elem_of_fmap_2, (list_elem_of_lookup_2 _ i), Hc'. }
    apply removes_app with (snd (widget_destroy f c ui)); [done|].
    rewrite <-Heq. apply IHcs. by rewrite Heq.
Qed.
End destroy.

(** [removes] depends only on which handles are removed. *)
Lemma removes_iff D D' ui ui' :
  (forall x, x ∈ D <-> x ∈ D') -> removes D ui ui' -> removes D' ui ui'.
Proof.
  intros HD (?&?&Hl). split_and!; [done|done|]. intros x. rewrite Hl.
  destruct (decide (x ∈ D)), (decide (x ∈ D')); naive_solver.
Qed.

(** A step that changes only handles removed afterwards is not seen. *)
Lemma removes_frame D ui ui1 ui2 :
  ui_next ui1 = ui_next ui -> ui_platform ui1 = ui_platform ui ->
  (forall x, x ∉ D -> ui_widgets ui1 !! x = ui_widgets ui !! x) ->
  removes D ui1 ui2 -> removes D ui ui2.
Proof.
  intros Hn Hp Hx (?&?&Hl). split_and!; [congruence|congruence|]. intros x. rewrite Hl.
  case_decide; [done|]. by apply Hx.
Qed.

(** With enough fuel to visit a tree whose handles are distinct, deleting
    its root removes exactly its handles. *)
Theorem widget_destroy_removes f h ui :
  NoDup (subtree f ui h) -> removes (subtree f ui h) ui (snd (widget_destroy f h ui)).
Proof.
  revert h ui. induction f as [|f IH]; intros h ui Hnd; simpl in *.
  - split_and!; [done|done|]. intros x. by rewrite decide_False by set_solver.
  - unfold children_of in *. destruct (ui_widgets ui !! h) as [w|] eqn:E; simpl in *.
    + apply NoDup_cons in Hnd as [Hh Hnd].
      destruct (st_iter_destroy f IH (w_children w) ui Hnd) as (?&?&Hl).
      split_and!; [done|done|]. intros x. simpl. rewrite lookup_delete, Hl.
      destruct (decide (h = x)) as [<-|]; repeat case_decide; set_solver.
    + split_and!; [done|done|]. intros x. case_decide; set_solver.
Qed.

(** ** Frame of other code's calls *)

(** A call that writes no handle of [D] leaves the widgets of [D] that
    are in the store as they were, and keeps the counter invariant and
    the platform. *)
Lemma run_call_frame c ui (D : list Handle) :
  ui_fresh_ok ui ->
  (forall h, call_target c = Some h -> h ∉ D) ->
  (forall h, h ∈ D -> is_Some (ui_widgets ui !! h)) ->
  ui_fresh_ok (snd (run_call c ui)) /\ ui_platform (snd (run_call c ui)) = ui_platform ui /\
  forall h, h ∈ D -> ui_widgets (snd (run_call c ui)) !! h = ui_widgets ui !! h.
Proof.
  intros Hok Ht Hin.
  destruct c as [k|p ch|h0 p|h0 b]; simpl in Ht.
  - change (snd (run_call (CallCreate k) ui)) with (snd (widget_create k ui)).
    split_and!; [by apply widget_create_fresh_ok|done|]. intros h Hh.
    rewrite widget_create_lookup, decide_False; [done|]. intros ->.
    destruct (Hin _ Hh) as [w Hw]. apply Hok in Hw. lia.
  - split_and!; [by apply widget_alter_fresh_ok|done|]. intros h Hh. simpl.
    rewrite lookup_alter_ne; [done|]. intros ->. by eapply Ht.
  - split_and!; [by apply widget_alter_fresh_ok|done|]. intros h Hh. simpl.
    rewrite lookup_alter_ne; [done|]. intros ->. by eapply Ht.
  - split_and!; [by apply widget_alter_fresh_ok|done|]. intros h Hh. simpl.
    rewrite lookup_alter_ne; [done|]. intros ->. by eapply Ht.
Qed.
