(* ===== verification/Transitions.v ===== *)
(** * Screen transition types and the per-platform lookups

    [MAWScreenTransitionType] is a C [int] (a typedef of MoSync's widget
    API).  Which transitions a platform offers, their names and codes,
    and the code [MAW_TRANSITION_TYPE_NONE] are constants of the toolkit
    that neither the header nor the spec lists; they are the fields of
    the type class [TransitionCatalog], so every theorem holds for every
    catalogue and a witness evaluates at a concrete one.

    [getTransitionTypeForiOS], [getTransitionTypeForAndroid] and
    [getTransitionTypeForWindows] are declared by the header with the
    contract "obtain the screen transition type from the list index":
    the entry of the platform's list at the selected index.  The header
    does not say what an index outside the list gives (the C++ vector
    access is unchecked); the model answers [MAW_TRANSITION_TYPE_NONE]. *)

From stdpp Require Import base gmap strings list.
From Stdlib Require Import ZArith Lia.
From S2P Require Import Prelude NativeUI.

Abbreviation MAWScreenTransitionType := Z.

Class TransitionCatalog := {
  platform_transitions : Platform -> list (string * MAWScreenTransitionType);
  MAW_TRANSITION_TYPE_NONE : MAWScreenTransitionType
}.

(** A catalogue for the examples: two transitions on iOS, one on
    Android, none on Windows Phone. *)
Definition demo_catalog : TransitionCatalog := {|
  platform_transitions p :=
    match p with
    | iOS => [("FlipFromLeft"%string, 1%Z); ("CurlUp"%string, 3%Z)]
    | Android => [("SlideLeft"%string, 5%Z)]
    | WindowsPhone => []
    end;
  MAW_TRANSITION_TYPE_NONE := 0%Z
|}.

Section lookups.
Context `{TransitionCatalog}.

(** The shared body of the three per-platform lookups. *)
Definition lookup_transition (table : list (string * MAWScreenTransitionType))
    (selectedIndex : Z) : MAWScreenTransitionType :=
  match zlookup table selectedIndex with
  | Some (_, t) => t
  | None => MAW_TRANSITION_TYPE_NONE
  end.

Definition getTransitionTypeForiOS (selectedIndex : Z) : MAWScreenTransitionType :=
  lookup_transition (platform_transitions iOS) selectedIndex.

Definition getTransitionTypeForAndroid (selectedIndex : Z) : MAWScreenTransitionType :=
  lookup_transition (platform_transitions Android) selectedIndex.

Definition getTransitionTypeForWindows (selectedIndex : Z) : MAWScreenTransitionType :=
  lookup_transition (platform_transitions WindowsPhone) selectedIndex.

(** The names and the codes of a platform's transitions. *)
Definition transition_names (p : Platform) : list string := fst <$> platform_transitions p.
Definition transition_codes (p : Platform) : list MAWScreenTransitionType :=
  snd <$> platform_transitions p.

Lemma lookup_transition_in_range table i :
  (0 <= i < Z.of_nat (length table))%Z ->
  exists name, zlookup table i = Some (name, lookup_transition table i).
Proof.
  intros [[name t] Hx]%zlookup_in_range. exists name.
  unfold lookup_transition. by rewrite Hx.
Qed.

Lemma lookup_transition_out_of_range table i :
  (i < 0 \/ Z.of_nat (length table) <= i)%Z ->
  lookup_transition table i = MAW_TRANSITION_TYPE_NONE.
Proof. intros Hi%zlookup_None. unfold lookup_transition. by rewrite Hi. Qed.

(** C8: each platform's lookup returns the code of the catalogue entry
    at the selected index. *)
Theorem getTransitionType_entry i name t :
  (zlookup (platform_transitions iOS) i = Some (name, t) -> getTransitionTypeForiOS i = t) /\
  (zlookup (platform_transitions Android) i = Some (name, t) ->
     getTransitionTypeForAndroid i = t) /\
  (zlookup (platform_transitions WindowsPhone) i = Some (name, t) ->
     getTransitionTypeForWindows i = t).
Proof.
  unfold getTransitionTypeForiOS, getTransitionTypeForAndroid, getTransitionTypeForWindows,
    lookup_transition.
  split_and!; intros Hx; by rewrite Hx.
Qed.


Lemma lookup_transition_codes table i :
  (0 <= i < Z.of_nat (length table))%Z ->
  zlookup (snd <$> table) i = Some (lookup_transition table i).
Proof.
  intros [name Hx]%lookup_transition_in_range. by rewrite zlookup_fmap, Hx.
Qed.
End lookups.

#[local] Existing Instance demo_catalog.

Lemma getTransitionType_entry_witness :
  zlookup (platform_transitions iOS) 1 = Some ("CurlUp"%string, 3%Z) /\
  getTransitionTypeForiOS 1 = 3%Z.
Proof.
  split; [reflexivity|].
  apply (proj1 (getTransitionType_entry 1 "CurlUp"%string 3%Z)). reflexivity.
Defined.

