(* ===== verification/Observer.v ===== *)
(** * The observer of the first screen

    [FirstScreen] holds a reference [mObserver] to a
    [FirstScreenObserver] (declared outside [src/]).  The spec describes
    it as a single callback notifying that a transition was selected; it
    is a type class over the observer's own state, so the screen's
    theorems hold for every observer.  [trace_observer] is the observer
    that records the notifications it receives, in order. *)

From stdpp Require Import base list.
From Stdlib Require Import ZArith.
From S2P Require Import Prelude NativeUI Transitions.

Class FirstScreenObserver (O : Type) := {
  transitionSelected : O -> MAWScreenTransitionType -> O
}.

#[export] Instance trace_observer : FirstScreenObserver (list MAWScreenTransitionType) := {
  transitionSelected o t := o ++ [t]
}.
