(* ===== verification/FirstScreen.v ===== *)
(** * The first screen: its state and its invariant

    The record [FirstScreen] is the class's data members (FirstScreen.h,
    lines 136-185) together with the handle of its [Screen] base object.
    [mObserver] is not a field: the observer's state is passed to the one
    handler that calls it, [buttonClicked].  [mPreviousItem] is a
    nullable pointer ([option]); the other widget pointers are set by
    [createUI] before anything reads them and are plain handles.

    The views [layout_of], [text_of], [listener_of], [highlighted_of] read
    a widget of the store; [ui_equiv] equates stores that differ only in
    highlights (an [Equivalence], with [structure_wf] [Proper] for it).
    The invariant [screen_wf] relates a screen to the store: the widget
    tree of [createUI], the list of items mirroring the platform's
    catalogue, the listeners, the container, and the highlight of exactly
    the previous item.  It is decidable ([Decision] instances), so a
    concrete state is checked by evaluation.  The operations are in
    [Construction] and [Handlers]. *)

From stdpp Require Import base gmap strings list.
From Stdlib Require Import ZArith Lia.
From S2P Require Import Prelude NativeUI Transitions Observer.

Local Open Scope st_scope.

Record FirstScreen := mkFirstScreen {
  mScreen : Handle;
  mMainLayout : Handle;
  mListLayout : Handle;
  mFooterLayout : Handle;
  mShowSecondScreenButton : Handle;
  mTitleLabel : Handle;
  mScreenTransitionListView : Handle;
  mPreviousItem : option Handle;
  mSelectedListItem : Z;
  mPlatformTransitions : list Z
}.


(** ** The invariant *)

(** What the screen can observe of a widget: kind, children, text and
    whether a listener is installed; the highlight is left out. *)
Definition shape_of (ui : NativeUIState) (h : Handle)
    : option (WidgetKind * list Handle * string * bool) :=
  (fun w => (w_kind w, w_children w, w_text w, w_listener w)) <$> ui_widgets ui !! h.

Definition layout_of (ui : NativeUIState) (h : Handle) : option (WidgetKind * list Handle) :=
  (fun '(k, ch, _, _) => (k, ch)) <$> shape_of ui h.
Definition text_of (ui : NativeUIState) (h : Handle) : option string :=
  (fun '(_, _, t, _) => t) <$> shape_of ui h.
Definition listener_of (ui : NativeUIState) (h : Handle) : option bool :=
  (fun '(_, _, _, l) => l) <$> shape_of ui h.
Definition highlighted_of (ui : NativeUIState) (h : Handle) : option bool :=
  w_highlighted <$> ui_widgets ui !! h.

(** Two stores that differ at most in highlights. *)
Definition ui_equiv (ui ui' : NativeUIState) : Prop :=
  ui_platform ui = ui_platform ui' /\ ui_next ui = ui_next ui' /\
  forall h, shape_of ui h = shape_of ui' h.

Definition list_items (s : FirstScreen) (ui : NativeUIState) : list Handle :=
  match layout_of ui (mScreenTransitionListView s) with
  | Some (_, items) => items
  | None => []
  end.

Definition screen_handles (s : FirstScreen) : list Handle :=
  [mScreen s; mMainLayout s; mTitleLabel s; mListLayout s;
   mScreenTransitionListView s; mFooterLayout s; mShowSecondScreenButton s].

Section invariant.
Context `{TransitionCatalog}.

(** The widget tree the constructor builds, the list of items that
    mirrors the platform's catalogue, and the screen's own fields. *)
Record structure_wf (s : FirstScreen) (ui : NativeUIState) : Prop := {
  sw_fresh : ui_fresh_ok ui;
  sw_screen : layout_of ui (mScreen s) = Some (Screen, [mMainLayout s]);
  sw_main : layout_of ui (mMainLayout s) =
    Some (VerticalLayout, [mTitleLabel s; mListLayout s; mFooterLayout s]);
  sw_title : layout_of ui (mTitleLabel s) = Some (Label, []);
  sw_list_layout : layout_of ui (mListLayout s) =
    Some (HorizontalLayout, [mScreenTransitionListView s]);
  sw_footer : layout_of ui (mFooterLayout s) =
    Some (HorizontalLayout, [mShowSecondScreenButton s]);
  sw_button : layout_of ui (mShowSecondScreenButton s) = Some (Button, []);
  sw_button_listener : listener_of ui (mShowSecondScreenButton s) = Some true;
  sw_list_view : layout_of ui (mScreenTransitionListView s) =
    Some (ListView, list_items s ui);
  sw_list_view_listener : listener_of ui (mScreenTransitionListView s) = Some true;
  sw_items : Forall2 (fun h name =>
      layout_of ui h = Some (ListViewItem, []) /\ text_of ui h = Some name)
    (list_items s ui) (transition_names (ui_platform ui));
  sw_distinct : NoDup (screen_handles s ++ list_items s ui);
  sw_container : mPlatformTransitions s = transition_codes (ui_platform ui);
  sw_previous : forall h, mPreviousItem s = Some h -> h ∈ list_items s ui;
  sw_selected : mSelectedListItem s = 0%Z \/
    (0 <= mSelectedListItem s < Z.of_nat (length (list_items s ui)))%Z
}.

(** Exactly the previous item is highlighted among the list's items. *)
Definition highlight_wf (s : FirstScreen) (ui : NativeUIState) : Prop :=
  Forall (fun h => highlighted_of ui h = Some (bool_decide (mPreviousItem s = Some h)))
    (list_items s ui).

Definition screen_wf (s : FirstScreen) (ui : NativeUIState) : Prop :=
  structure_wf s ui /\ highlight_wf s ui.
End invariant.

(** ** Deciding the invariant *)

Lemma previous_ok_iff (o : option Handle) (l : list Handle) :
  (forall h, o = Some h -> h ∈ l) <-> Forall (fun h => h ∈ l) (option_list o).
Proof. destruct o; simpl; rewrite ?Forall_singleton, ?Forall_nil; naive_solver. Qed.

(** The invariant's conditions as one conjunction, each decidable. *)
Definition structure_conds `{TransitionCatalog} s ui : Prop :=
    ui_fresh_ok ui /\
    layout_of ui (mScreen s) = Some (Screen, [mMainLayout s]) /\
    layout_of ui (mMainLayout s) =
      Some (VerticalLayout, [mTitleLabel s; mListLayout s; mFooterLayout s]) /\
    layout_of ui (mTitleLabel s) = Some (Label, []) /\
    layout_of ui (mListLayout s) = Some (HorizontalLayout, [mScreenTransitionListView s]) /\
    layout_of ui (mFooterLayout s) = Some (HorizontalLayout, [mShowSecondScreenButton s]) /\
    layout_of ui (mShowSecondScreenButton s) = Some (Button, []) /\
    listener_of ui (mShowSecondScreenButton s) = Some true /\
    layout_of ui (mScreenTransitionListView s) = Some (ListView, list_items s ui) /\
    listener_of ui (mScreenTransitionListView s) = Some true /\
    Forall2 (fun h name =>
        layout_of ui h = Some (ListViewItem, []) /\ text_of ui h = Some name)
      (list_items s ui) (transition_names (ui_platform ui)) /\
    NoDup (screen_handles s ++ list_items s ui) /\
    mPlatformTransitions s = transition_codes (ui_platform ui) /\
    Forall (fun h => h ∈ list_items s ui) (option_list (mPreviousItem s)) /\
    (mSelectedListItem s = 0%Z \/
      (0 <= mSelectedListItem s < Z.of_nat (length (list_items s ui)))%Z).

Lemma structure_wf_iff `{TransitionCatalog} s ui : structure_wf s ui <-> structure_conds s ui.
Proof.
  unfold structure_conds. rewrite <-previous_ok_iff. split.
  - intros []. by split_and!.
  - intros (?&?&?&?&?&?&?&?&?&?&?&?&?&?&?). by split.
Qed.

#[export] Instance ui_fresh_ok_dec ui : Decision (ui_fresh_ok ui).
Proof. unfold ui_fresh_ok. apply _. Defined.

#[export] Instance structure_conds_dec `{TransitionCatalog} s ui :
  Decision (structure_conds s ui).
Proof. unfold structure_conds. apply _. Defined.

#[export] Instance structure_wf_dec `{TransitionCatalog} s ui : Decision (structure_wf s ui).
Proof.
  refine (cast_if (decide (structure_conds s ui))); rewrite structure_wf_iff; [done|done].
Defined.

#[export] Instance screen_wf_dec `{TransitionCatalog} s ui : Decision (screen_wf s ui).
Proof. unfold screen_wf, highlight_wf. apply _. Defined.

(** ** Stores equal up to highlights *)

#[export] Instance ui_equiv_equivalence : Equivalence ui_equiv.
Proof.
  split.
  - done.
  - intros ui ui' (?&?&Hs). split_and!; [done|done|]. intros h. by rewrite Hs.
  - intros ui1 ui2 ui3 (?&?&H12) (?&?&H23). split_and!; [congruence|congruence|].
    intros h. by rewrite H12, H23.
Qed.

Lemma ui_equiv_fresh_ok ui ui' : ui_equiv ui ui' -> ui_fresh_ok ui -> ui_fresh_ok ui'.
Proof.
  intros (_&Hn&Hs) Hok h w Hw. rewrite <-Hn. specialize (Hs h). unfold shape_of in Hs.
  rewrite Hw in Hs. destruct (ui_widgets ui !! h) eqn:E; [by eapply Hok|discriminate].
Qed.

Lemma ui_equiv_views ui ui' h : ui_equiv ui ui' ->
  layout_of ui h = layout_of ui' h /\ text_of ui h = text_of ui' h /\
  listener_of ui h = listener_of ui' h.
Proof. intros (_&_&Hs). unfold layout_of, text_of, listener_of. by rewrite Hs. Qed.

Lemma ui_equiv_list_items s ui ui' : ui_equiv ui ui' -> list_items s ui = list_items s ui'.
Proof. intros Heq. unfold list_items. by rewrite (proj1 (ui_equiv_views _ _ _ Heq)). Qed.

#[export] Instance structure_wf_proper `{TransitionCatalog} :
  Proper (eq ==> ui_equiv ==> iff) structure_wf.
Proof.
  (* one direction suffices, the relation being symmetric *)
  assert (forall s ui ui', ui_equiv ui ui' -> structure_wf s ui -> structure_wf s ui') as Hdir.
  { intros s ui ui' Heq Hwf. pose proof Heq as (Hp&_&_).
    pose proof (ui_equiv_list_items s ui ui' Heq) as Hl.
    assert (forall h, layout_of ui h = layout_of ui' h) as Hla
      by (intros; apply ui_equiv_views, Heq).
    assert (forall h, text_of ui h = text_of ui' h) as Hte
      by (intros; apply ui_equiv_views, Heq).
    assert (forall h, listener_of ui h = listener_of ui' h) as Hli
      by (intros; apply ui_equiv_views, Heq).
    destruct Hwf; split; rewrite <-?Hl, <-?Hp, <-?Hla, <-?Hli;
      eauto using ui_equiv_fresh_ok.
    eapply Forall2_impl; [done|]. intros ?? Hx. by rewrite <-Hla, <-Hte. }
  intros s ? <- ui ui' Heq. split; apply Hdir; [done|by symmetry].
Qed.

Lemma set_highlight_equiv h b ui :
  ui_equiv ui (snd (widget_set_property h (PropHighlighted b) ui)).
Proof.
  split_and!; [done|done|]. intros x. unfold shape_of. simpl.
  rewrite lookup_alter. case_decide; subst; [|done].
  by destruct (ui_widgets ui !! x).
Qed.

Lemma set_highlight_lookup h b ui x :
  highlighted_of (snd (widget_set_property h (PropHighlighted b) ui)) x =
    if decide (x = h) then (fun _ => b) <$> ui_widgets ui !! x
    else highlighted_of ui x.
Proof.
  unfold highlighted_of. simpl. rewrite lookup_alter. destruct (decide (h = x)) as [->|Hne].
  - rewrite decide_True by done. by destruct (ui_widgets ui !! x).
  - rewrite decide_False by congruence. done.
Qed.

(** An item of the list is in the store. *)
Lemma list_item_in_store `{TransitionCatalog} s ui h :
  structure_wf s ui -> h ∈ list_items s ui -> is_Some (ui_widgets ui !! h).
Proof.
  intros Hwf Hh. apply list_elem_of_lookup in Hh as [i Hi].
  destruct (Forall2_lookup_l _ _ _ _ _ (sw_items _ _ Hwf) Hi) as (name&_&Hl&_).
  unfold layout_of, shape_of in Hl. destruct (ui_widgets ui !! h); [done|discriminate].
Qed.

#[export] Hint Resolve set_highlight_equiv list_item_in_store : screen.
