(* ===== verification/Construction.v ===== *)
(** * Construction of the first screen

    The constructor [new_FirstScreen] (FirstScreen::FirstScreen) and the
    methods it calls: [createUI] (six new widgets nested under the main
    layout, itself the screen's child), [fillScreenTransitionContainer]
    (the platform's codes into [mPlatformTransitions]),
    [populateTransitionList] (one labelled item per transition, appended
    to the list view, its loop body [add_transition_item]).  Then the store
    they build, computed call by call, and the theorems that the
    constructor establishes [screen_wf] and lists the catalogue. *)

From stdpp Require Import base gmap strings list.
From Stdlib Require Import ZArith Lia.
From S2P Require Import Prelude NativeUI Transitions Observer FirstScreen.

Local Open Scope st_scope.

(** ** The constructor and the methods it calls *)

Section operations.
Context `{TransitionCatalog}.

Definition createUI (s : FirstScreen) : St NativeUIState FirstScreen :=
  DO mainLayout <- widget_create VerticalLayout ;;
  DO titleLabel <- widget_create Label ;;
  widget_add_child mainLayout titleLabel ;;;
  DO listLayout <- widget_create HorizontalLayout ;;
  DO listView <- widget_create ListView ;;
  widget_add_child listLayout listView ;;;
  widget_add_child mainLayout listLayout ;;;
  DO footerLayout <- widget_create HorizontalLayout ;;
  DO button <- widget_create Button ;;
  widget_add_child footerLayout button ;;;
  widget_add_child mainLayout footerLayout ;;;
  widget_add_child (mScreen s) mainLayout ;;;
  st_ret (mkFirstScreen (mScreen s) mainLayout listLayout footerLayout button
            titleLabel listView (mPreviousItem s) (mSelectedListItem s)
            (mPlatformTransitions s)).

Definition fillScreenTransitionContainer (s : FirstScreen)
    : St NativeUIState FirstScreen :=
  DO ui <- st_get ;;
  st_ret (mkFirstScreen (mScreen s) (mMainLayout s) (mListLayout s) (mFooterLayout s)
            (mShowSecondScreenButton s) (mTitleLabel s) (mScreenTransitionListView s)
            (mPreviousItem s) (mSelectedListItem s)
            (transition_codes (ui_platform ui))).

(** One list item with the given name, appended to the list view. *)
Definition add_transition_item (listView : Handle) (name : string)
    : St NativeUIState unit :=
  DO item <- widget_create ListViewItem ;;
  widget_set_property item (PropText name) ;;;
  widget_add_child listView item.

Definition populateTransitionList (s : FirstScreen) : St NativeUIState unit :=
  DO ui <- st_get ;;
  st_iter (add_transition_item (mScreenTransitionListView s))
          (transition_names (ui_platform ui)).

(** The constructor: the [Screen] base object, then the UI, the
    container and the list, then the screen listens to its button and
    its list view.  No item is selected; the selected index is 0. *)
Definition new_FirstScreen : St NativeUIState FirstScreen :=
  DO scr <- widget_create Screen ;;
  DO s <- createUI (mkFirstScreen scr scr scr scr scr scr scr None 0%Z []) ;;
  DO s <- fillScreenTransitionContainer s ;;
  populateTransitionList s ;;;
  widget_set_listener (mShowSecondScreenButton s) true ;;;
  widget_set_listener (mScreenTransitionListView s) true ;;;
  st_ret s.
End operations.

(** ** Views of the allocation *)

(** The [k] handles a run of [k] creations allocates from [n]. *)
Fixpoint fresh_handles (n : Handle) (k : nat) : list Handle :=
  match k with
  | 0 => []
  | S k' => n :: fresh_handles (n + 1)%N k'
  end.

Definition with_children (cs : list Handle) (w : Widget) : Widget :=
  mkWidget (w_kind w) (w_children w ++ cs) (w_text w) (w_highlighted w) (w_listener w).

Definition item_widget (name : string) : Widget := mkWidget ListViewItem [] name false false.

Section construction.
Context `{TransitionCatalog}.
Implicit Types (s : FirstScreen) (ui : NativeUIState).

Lemma fresh_handles_lookup n k j :
  j < k -> fresh_handles n k !! j = Some (n + N.of_nat j)%N.
Proof.
  revert n j. induction k as [|k IH]; intros n [|j] Hj; simpl; try lia.
  - f_equal. lia.
  - rewrite IH by lia. f_equal. lia.
Qed.

Lemma length_fresh_handles n k : length (fresh_handles n k) = k.
Proof. revert n. induction k; simpl; auto. Qed.

Lemma fresh_handles_lookup_Some n k j h :
  fresh_handles n k !! j = Some h -> j < k /\ h = (n + N.of_nat j)%N.
Proof.
  intros Hj. assert (j < k) as Hlt
    by (apply lookup_lt_Some in Hj; by rewrite length_fresh_handles in Hj).
  rewrite fresh_handles_lookup in Hj by done. naive_solver.
Qed.

Lemma fresh_handles_ge n k x : x ∈ fresh_handles n k -> (n <= x)%N.
Proof.
  intros (j&Hj)%list_elem_of_lookup. apply fresh_handles_lookup_Some in Hj. lia.
Qed.

Lemma NoDup_fresh_handles n k : NoDup (fresh_handles n k).
Proof.
  revert n. induction k as [|k IH]; intros n; simpl; [constructor|].
  apply NoDup_cons. split; [|done]. intros Hin%fresh_handles_ge. lia.
Qed.

Lemma fresh_handles_add n a b :
  fresh_handles n (a + b) = fresh_handles n a ++ fresh_handles (n + N.of_nat a)%N b.
Proof.
  revert n. induction a as [|a IH]; intros n; simpl.
  - by rewrite N.add_0_r.
  - rewrite IH. by replace (n + 1 + N.of_nat a)%N with (n + N.of_nat (S a))%N by lia.
Qed.

Lemma createUI_fst s ui :
  fst (createUI s ui) =
    mkFirstScreen (mScreen s) (ui_next ui) (ui_next ui + 2)%N (ui_next ui + 4)%N
      (ui_next ui + 5)%N (ui_next ui + 1)%N (ui_next ui + 3)%N
      (mPreviousItem s) (mSelectedListItem s) (mPlatformTransitions s).
Proof.
  cbn [createUI st_bind st_ret widget_create widget_add_child st_modify ui_next fst snd].
  by rewrite <-?N.add_assoc.
Qed.

Lemma createUI_next s ui : ui_next (snd (createUI s ui)) = (ui_next ui + 6)%N.
Proof.
  cbn [createUI st_bind st_ret widget_create widget_add_child st_modify ui_next snd].
  by rewrite <-?N.add_assoc.
Qed.

Lemma createUI_platform s ui : ui_platform (snd (createUI s ui)) = ui_platform ui.
Proof. reflexivity. Qed.

Lemma createUI_store s ui w :
  ui_fresh_ok ui -> (mScreen s < ui_next ui)%N -> ui_widgets ui !! mScreen s = Some w ->
  let n := ui_next ui in
  ui_widgets (snd (createUI s ui)) =
    <[(n+5)%N := mkWidget Button [] "" false false]>
    (<[(n+4)%N := mkWidget HorizontalLayout [(n+5)%N] "" false false]>
    (<[(n+3)%N := mkWidget ListView [] "" false false]>
    (<[(n+2)%N := mkWidget HorizontalLayout [(n+3)%N] "" false false]>
    (<[(n+1)%N := mkWidget Label [] "" false false]>
    (<[n := mkWidget VerticalLayout [(n+1)%N; (n+2)%N; (n+4)%N] "" false false]>
    (<[mScreen s := with_children [n] w]> (ui_widgets ui))))))).
Proof.
  intros Hok Hs Hw n.
  cbn [createUI st_bind st_ret widget_create widget_add_child st_modify ui_next ui_widgets
       ui_platform snd].
  apply map_eq. intros h. subst n.
  destruct (decide (h = mScreen s)) as [->|H1]; [lookup_simpl; by rewrite Hw|].
  destruct (decide (ui_next ui <= h < ui_next ui + 6)%N) as [Hin|Hout].
  - assert (h = ui_next ui \/ h = ui_next ui + 1 \/ h = ui_next ui + 2 \/
            h = ui_next ui + 3 \/ h = ui_next ui + 4 \/ h = ui_next ui + 5)%N
      as Hc by lia.
    destruct_or!; subst h; lookup_simpl; rewrite ?fresh_lookup_None by (done || lia);
      simpl; rewrite <-?N.add_assoc; done.
  - by lookup_simpl.
Qed.

Lemma with_children_app a b w : with_children b (with_children a w) = with_children (a ++ b) w.
Proof. unfold with_children. simpl. by rewrite app_assoc. Qed.

(** One item: a fresh list item with the name, appended to the list view. *)
Lemma add_transition_item_store lv name ui :
  ui_fresh_ok ui -> (lv < ui_next ui)%N ->
  let ui' := snd (add_transition_item lv name ui) in
  ui_next ui' = (ui_next ui + 1)%N /\ ui_platform ui' = ui_platform ui /\
  ui_fresh_ok ui' /\
  forall h, ui_widgets ui' !! h =
    if decide (h = lv) then with_children [ui_next ui] <$> ui_widgets ui !! lv
    else if decide (h = ui_next ui) then Some (item_widget name)
    else ui_widgets ui !! h.
Proof.
  intros Hok Hlv ui'.
  assert (forall h, ui_widgets ui' !! h =
    if decide (h = lv) then with_children [ui_next ui] <$> ui_widgets ui !! lv
    else if decide (h = ui_next ui) then Some (item_widget name)
    else ui_widgets ui !! h) as Hl.
  { intros h. unfold ui'.
    cbn [add_transition_item st_bind widget_create widget_set_property widget_add_child
         st_modify ui_next ui_widgets snd].
    destruct (decide (h = lv)) as [->|Hne]; [by lookup_simpl|].
    destruct (decide (h = ui_next ui)) as [->|Hne']; by lookup_simpl. }
  split_and!; [done|done| |done].
  intros h w Hw. change (ui_next ui') with (ui_next ui + 1)%N. rewrite Hl in Hw.
  repeat case_decide; subst; try lia. apply Hok in Hw. lia.
Qed.

(** The whole list: consecutive fresh items, in the order of the names. *)
Lemma populate_store lv names ui :
  ui_fresh_ok ui -> (lv < ui_next ui)%N ->
  let ui' := snd (st_iter (add_transition_item lv) names ui) in
  ui_next ui' = (ui_next ui + N.of_nat (length names))%N /\
  ui_platform ui' = ui_platform ui /\ ui_fresh_ok ui' /\
  forall h, ui_widgets ui' !! h =
    if decide (h = lv)
    then with_children (fresh_handles (ui_next ui) (length names)) <$> ui_widgets ui !! lv
    else if decide (ui_next ui <= h)%N
    then item_widget <$> names !! N.to_nat (h - ui_next ui)
    else ui_widgets ui !! h.
Proof.
  revert ui. induction names as [|x names IH]; intros ui Hok Hlv ui'.
  - unfold ui'. simpl. split_and!; [lia|done|done|]. intros h.
    case_decide as Hh; [subst; destruct (ui_widgets ui !! lv) as [w|]; [|done]|].
    + unfold with_children. simpl. rewrite app_nil_r. by destruct w.
    + case_decide; [|done]. by rewrite fresh_lookup_None.
  - unfold ui'. simpl. rewrite st_bind_unit.
    destruct (add_transition_item_store lv x ui Hok Hlv) as (Hn1&Hp1&Hok1&Hl1).
    destruct (IH (snd (add_transition_item lv x ui)) Hok1 ltac:(lia)) as (Hn&Hp&Hok'&Hl).
    split_and!; [rewrite Hn, Hn1; lia|congruence|done|]. intros h.
    rewrite Hl, Hn1, !Hl1. destruct (decide (h = lv)) as [->|Hne].
    + rewrite decide_True by done. destruct (ui_widgets ui !! lv); [|done].
      simpl. by rewrite with_children_app.
    + destruct (decide (ui_next ui + 1 <= h)%N) as [Hge|Hlt].
      * rewrite decide_True by lia.
        replace (N.to_nat (h - ui_next ui)) with (S (N.to_nat (h - (ui_next ui + 1)))) by lia.
        done.
      * destruct (decide (h = ui_next ui)) as [->|Hne'].
        -- rewrite decide_True by lia. by rewrite N.sub_diag.
        -- by rewrite decide_False by lia.
Qed.

Lemma createUI_fresh_ok s ui w :
  ui_fresh_ok ui -> (mScreen s < ui_next ui)%N -> ui_widgets ui !! mScreen s = Some w ->
  ui_fresh_ok (snd (createUI s ui)).
Proof.
  intros Hok Hs Hw. unfold ui_fresh_ok. rewrite createUI_next, (createUI_store s ui w) by done.
  repeat (apply map_Forall_insert_2; [simpl; lia|]).
  eapply map_Forall_impl; [apply Hok|]. intros h ? Hh. simpl in *. lia.
Qed.

Lemma new_FirstScreen_unfold ui :
  new_FirstScreen ui =
    (let ui1 := snd (widget_create Screen ui) in
     let n := ui_next ui in
     let s1 := fst (createUI (mkFirstScreen n n n n n n n None 0%Z []) ui1) in
     let ui2 := snd (createUI (mkFirstScreen n n n n n n n None 0%Z []) ui1) in
     let s := mkFirstScreen (mScreen s1) (mMainLayout s1) (mListLayout s1) (mFooterLayout s1)
                (mShowSecondScreenButton s1) (mTitleLabel s1) (mScreenTransitionListView s1)
                (mPreviousItem s1) (mSelectedListItem s1)
                (transition_codes (ui_platform ui2)) in
     let ui3 := snd (st_iter (add_transition_item (mScreenTransitionListView s))
                       (transition_names (ui_platform ui2)) ui2) in
     (s, snd (widget_set_listener (mScreenTransitionListView s) true
               (snd (widget_set_listener (mShowSecondScreenButton s) true ui3))))).
Proof. unfold new_FirstScreen. repeat (rewrite st_bind_eq; cbv beta). reflexivity. Qed.

Lemma new_FirstScreen_fst ui :
  let n := ui_next ui in
  fst (new_FirstScreen ui) =
    mkFirstScreen n (n + 1)%N (n + 3)%N (n + 5)%N (n + 6)%N (n + 2)%N (n + 4)%N None 0%Z
      (transition_codes (ui_platform ui)).
Proof.
  rewrite new_FirstScreen_unfold. cbv zeta. cbn [fst]. rewrite createUI_fst.
  cbn [mScreen mMainLayout mListLayout mFooterLayout mShowSecondScreenButton mTitleLabel
       mScreenTransitionListView mPreviousItem mSelectedListItem].
  rewrite widget_create_next, createUI_platform. simpl. by rewrite <-!N.add_assoc.
Qed.

(** Every lookup in the store the constructor leaves. *)
Lemma new_FirstScreen_store ui :
  ui_fresh_ok ui ->
  let n := ui_next ui in
  let names := transition_names (ui_platform ui) in
  let ui' := snd (new_FirstScreen ui) in
  ui_platform ui' = ui_platform ui /\
  ui_next ui' = (n + 7 + N.of_nat (length names))%N /\
  ui_fresh_ok ui' /\
  forall h, ui_widgets ui' !! h =
    if decide (h = n) then Some (mkWidget Screen [(n + 1)%N] "" false false)
    else if decide (h = n + 1)%N then
      Some (mkWidget VerticalLayout [(n + 2)%N; (n + 3)%N; (n + 5)%N] "" false false)
    else if decide (h = n + 2)%N then Some (mkWidget Label [] "" false false)
    else if decide (h = n + 3)%N then Some (mkWidget HorizontalLayout [(n + 4)%N] "" false false)
    else if decide (h = n + 4)%N then
      Some (mkWidget ListView (fresh_handles (n + 7) (length names)) "" false true)
    else if decide (h = n + 5)%N then Some (mkWidget HorizontalLayout [(n + 6)%N] "" false false)
    else if decide (h = n + 6)%N then Some (mkWidget Button [] "" false true)
    else if decide (n + 7 <= h)%N then item_widget <$> names !! N.to_nat (h - (n + 7))
    else ui_widgets ui !! h.
Proof.
  intros Hok n names ui'.
  set (ui1 := snd (widget_create Screen ui)).
  set (s0 := mkFirstScreen n n n n n n n None 0%Z []).
  assert (ui_fresh_ok ui1) as Hok1 by apply widget_create_fresh_ok, Hok.
  assert (ui_widgets ui1 !! n = Some (mkWidget Screen [] "" false false)) as Hw1
    by (unfold ui1; rewrite widget_create_lookup; by rewrite decide_True).
  assert (ui_next ui1 = n + 1)%N as Hn1 by done.
  pose proof (createUI_fresh_ok s0 ui1 _ Hok1 ltac:(simpl; lia) Hw1) as Hok2.
  set (ui2 := snd (createUI s0 ui1)) in *.
  assert (ui_next ui2 = n + 7)%N as Hn2
    by (unfold ui2; rewrite createUI_next, Hn1; lia).
  destruct (populate_store (n + 4)%N names ui2 Hok2 ltac:(lia)) as (Hn3&Hp3&Hok3&Hl3).
  assert (ui' = snd (widget_set_listener (n + 4)%N true
                 (snd (widget_set_listener (n + 6)%N true
                   (snd (st_iter (add_transition_item (n + 4)%N) names ui2)))))) as ->.
  { unfold ui'. rewrite new_FirstScreen_unfold. cbv zeta. cbn [snd]. fold s0 ui1.
    rewrite createUI_fst, Hn1. fold ui2.
    cbn [mScreenTransitionListView mShowSecondScreenButton]. rewrite <-!N.add_assoc.
    reflexivity. }
  split_and!.
  - done.
  - simpl. rewrite Hn3, Hn2. lia.
  - by apply widget_set_listener_fresh_ok, widget_set_listener_fresh_ok.
  - intros h. rewrite !widget_set_listener_lookup, !Hl3, Hn2.
    unfold ui2. rewrite (createUI_store s0 ui1 _ Hok1 ltac:(simpl; lia) Hw1), Hn1.
    simpl mScreen. unfold ui1. simpl ui_widgets.
    destruct (decide (n + 7 <= h)%N) as [Hge|Hlt].
    + decide_simpl. done.
    + assert (h = n \/ h = n + 1 \/ h = n + 2 \/ h = n + 3 \/ h = n + 4 \/
              h = n + 5 \/ h = n + 6 \/ h < n)%N as Hc by lia.
      destruct_or!; try subst h; decide_simpl; lookup_simpl;
        rewrite ?fresh_lookup_None by (done || lia); simpl; rewrite <-?N.add_assoc; try done.
Qed.

(** The constructor establishes the invariant on any store whose
    handles are below its counter. *)
Theorem new_FirstScreen_wf ui :
  ui_fresh_ok ui -> screen_wf (fst (new_FirstScreen ui)) (snd (new_FirstScreen ui)).
Proof.
  intros Hok. destruct (new_FirstScreen_store ui Hok) as (Hp&_&Hok'&Hl).
  rewrite new_FirstScreen_fst.
  set (n := ui_next ui) in *. set (names := transition_names (ui_platform ui)) in *.
  set (ui' := snd (new_FirstScreen ui)) in *.
  set (s := mkFirstScreen n _ _ _ _ _ _ None 0%Z _).
  (* the items are the fresh handles after the seven widgets *)
  assert (list_items s ui' = fresh_handles (n + 7) (length names)) as Hitems.
  { unfold list_items, layout_of, shape_of. simpl. rewrite Hl. by decide_simpl. }
  assert (forall j h, fresh_handles (n + 7) (length names) !! j = Some h ->
            exists name, names !! j = Some name /\
              ui_widgets ui' !! h = Some (item_widget name)) as Hitem.
  { intros j h (Hj&->)%fresh_handles_lookup_Some.
    destruct (lookup_lt_is_Some_2 names j) as [name Hname]; [done|].
    exists name. split; [done|]. rewrite Hl. decide_simpl.
    replace (N.to_nat (n + 7 + N.of_nat j - (n + 7))) with j by lia. by rewrite Hname. }
  split; [split|].
  all: try (unfold layout_of, listener_of, shape_of; simpl; rewrite ?Hitems, Hl;
            decide_simpl; reflexivity).
  - done.
  - rewrite Hitems, Hp. apply Forall2_same_length_lookup.
    split; [by rewrite length_fresh_handles|]. intros j h name Hh Hname.
    destruct (Hitem j h Hh) as (name'&Hname'&Hw). unfold names in Hname'.
    rewrite Hname in Hname'. injection Hname' as <-.
    unfold layout_of, text_of, shape_of. by rewrite Hw.
  - rewrite Hitems. replace (screen_handles s) with (fresh_handles n 7)
      by (simpl; by rewrite <-!N.add_assoc).
    rewrite <-fresh_handles_add. apply NoDup_fresh_handles.
  - by rewrite Hp.
  - done.
  - by left.
  - unfold highlight_wf. rewrite Hitems, Forall_lookup. intros j h Hh.
    destruct (Hitem j h Hh) as (name&_&Hw). unfold highlighted_of. by rewrite Hw.
Qed.

(** C5: after construction the list view shows the platform's catalogue:
    one item per transition, in order, item [j] labelled with the name
    of transition [j] and not highlighted, the container holding code
    [j] at [j]; no item is selected and both listeners are installed. *)
Theorem new_FirstScreen_lists_catalogue ui :
  ui_fresh_ok ui ->
  let s := fst (new_FirstScreen ui) in
  let ui' := snd (new_FirstScreen ui) in
  length (list_items s ui') = length (platform_transitions (ui_platform ui)) /\
  (forall j h, list_items s ui' !! j = Some h ->
     exists name code, platform_transitions (ui_platform ui) !! j = Some (name, code) /\
       text_of ui' h = Some name /\ highlighted_of ui' h = Some false /\
       mPlatformTransitions s !! j = Some code) /\
  mPreviousItem s = None /\
  listener_of ui' (mShowSecondScreenButton s) = Some true /\
  listener_of ui' (mScreenTransitionListView s) = Some true.
Proof.
  intros Hok s ui'. destruct (new_FirstScreen_wf ui Hok) as [Hwf Hhl].
  destruct (new_FirstScreen_store ui Hok) as (Hp&_&_&_). fold s ui' in Hwf, Hhl, Hp.
  assert (mPreviousItem s = None) as Hprev by (unfold s; by rewrite new_FirstScreen_fst).
  pose proof (sw_items _ _ Hwf) as Hitems. rewrite Hp in Hitems.
  split_and!; [|intros j h Hh| done | apply Hwf | apply Hwf].
  - rewrite (Forall2_length _ _ _ Hitems). unfold transition_names. by rewrite length_fmap.
  - destruct (Forall2_lookup_l _ _ _ _ _ Hitems Hh) as (name&Hname&_&Htext).
    unfold transition_names in Hname. rewrite list_lookup_fmap in Hname.
    apply fmap_Some in Hname as ([name' code]&Hentry&->).
    exists name', code. split_and!; [done|done| |].
    + unfold highlight_wf in Hhl. rewrite Forall_forall in Hhl.
      rewrite Hhl by (by eapply list_elem_of_lookup_2). by rewrite Hprev.
    + rewrite (sw_container _ _ Hwf), Hp. unfold transition_codes.
      by rewrite list_lookup_fmap, Hentry.
Qed.
End construction.

#[local] Existing Instance demo_catalog.

Lemma new_FirstScreen_lists_catalogue_witness :
  ui_fresh_ok demo_ui /\
  length (list_items (fst (new_FirstScreen demo_ui)) (snd (new_FirstScreen demo_ui))) = 2.
Proof.
  assert (ui_fresh_ok demo_ui) as Hok by apply map_Forall_empty.
  split; [done|].
  destruct (new_FirstScreen_lists_catalogue demo_ui Hok) as (Hlen&_). rewrite Hlen.
  reflexivity.
Defined.
