(* ===== verification/Handlers.v ===== *)
(** * The first screen's event handlers

    [buttonClicked] (FirstScreen::buttonClicked) and the two
    [listViewItemClicked] overloads, [listViewItemClicked_item] and
    [listViewItemClicked_index].  Each handler is guarded by the event's
    source and keeps [screen_wf]; a click on an item makes it the only
    highlighted item; a click on the button reports to the observer the
    code of the transition whose name the selected item shows; the two
    overloads commute. *)

From stdpp Require Import base gmap strings list.
From Stdlib Require Import ZArith Lia.
From S2P Require Import Prelude NativeUI Transitions Observer FirstScreen Construction.

Local Open Scope st_scope.

(** ** The event handlers *)

Section operations.
Context `{TransitionCatalog}.

(** A click on the screen's button reports the transition of the
    selected index on the current platform to the observer. *)
Definition buttonClicked {Obs : Type} `{FirstScreenObserver Obs} (s : FirstScreen)
    (button : Handle) (ui : NativeUIState) (o : Obs) : Obs :=
  if decide (button = mShowSecondScreenButton s) then
    transitionSelected o
      (match ui_platform ui with
       | iOS => getTransitionTypeForiOS (mSelectedListItem s)
       | Android => getTransitionTypeForAndroid (mSelectedListItem s)
       | WindowsPhone => getTransitionTypeForWindows (mSelectedListItem s)
       end)
  else o.

(** A click on an item of the screen's list view: the previous item's
    visual state is reset, the clicked item is highlighted and becomes
    the previous item. *)
Definition listViewItemClicked_item (s : FirstScreen) (listView item : Handle)
    : St NativeUIState FirstScreen :=
  if decide (listView = mScreenTransitionListView s) then
    match mPreviousItem s with
    | Some prev => widget_set_property prev (PropHighlighted false)
    | None => st_ret tt
    end ;;;
    widget_set_property item (PropHighlighted true) ;;;
    st_ret (mkFirstScreen (mScreen s) (mMainLayout s) (mListLayout s) (mFooterLayout s)
              (mShowSecondScreenButton s) (mTitleLabel s) (mScreenTransitionListView s)
              (Some item) (mSelectedListItem s) (mPlatformTransitions s))
  else st_ret s.

(** A click at an index of the screen's list view selects that index. *)
Definition listViewItemClicked_index (s : FirstScreen) (listView : Handle) (index : Z)
    : FirstScreen :=
  if decide (listView = mScreenTransitionListView s) then
    mkFirstScreen (mScreen s) (mMainLayout s) (mListLayout s) (mFooterLayout s)
      (mShowSecondScreenButton s) (mTitleLabel s) (mScreenTransitionListView s)
      (mPreviousItem s) index (mPlatformTransitions s)
  else s.

(** The store after the item handler, and its highlights. *)
Definition after_item_click (s : FirstScreen) (ui : NativeUIState) (item : Handle)
    : NativeUIState :=
  snd (widget_set_property item (PropHighlighted true)
        (snd (match mPreviousItem s with
              | Some prev => widget_set_property prev (PropHighlighted false)
              | None => st_ret tt
              end ui))).

(** The screen and the store after a click on item [item] at index [i]
    of the list view [lv], both overloads run. *)
Definition select_item (s : FirstScreen) (ui : NativeUIState) (lv item : Handle) (i : Z)
    : FirstScreen * NativeUIState :=
  if decide (lv = mScreenTransitionListView s) then
    (mkFirstScreen (mScreen s) (mMainLayout s) (mListLayout s) (mFooterLayout s)
       (mShowSecondScreenButton s) (mTitleLabel s) (mScreenTransitionListView s)
       (Some item) i (mPlatformTransitions s),
     after_item_click s ui item)
  else (s, ui).
End operations.

Section handlers.
Context `{TransitionCatalog}.
Implicit Types (s : FirstScreen) (ui : NativeUIState).

(** ** Helper lemmas *)

Lemma set_property_is_Some h p ui x :
  is_Some (ui_widgets (snd (widget_set_property h p ui)) !! x) <->
  is_Some (ui_widgets ui !! x).
Proof.
  rewrite widget_set_property_lookup. case_decide; [|done].
  by rewrite fmap_is_Some.
Qed.

Lemma structure_wf_previous s ui item :
  structure_wf s ui -> item ∈ list_items s ui ->
  structure_wf (mkFirstScreen (mScreen s) (mMainLayout s) (mListLayout s) (mFooterLayout s)
                 (mShowSecondScreenButton s) (mTitleLabel s) (mScreenTransitionListView s)
                 (Some item) (mSelectedListItem s) (mPlatformTransitions s)) ui.
Proof. intros [] Hin. split; try done. by intros h [= <-]. Qed.

Lemma structure_wf_selected s ui i :
  structure_wf s ui -> (0 <= i < Z.of_nat (length (list_items s ui)))%Z ->
  structure_wf (mkFirstScreen (mScreen s) (mMainLayout s) (mListLayout s) (mFooterLayout s)
                 (mShowSecondScreenButton s) (mTitleLabel s) (mScreenTransitionListView s)
                 (mPreviousItem s) i (mPlatformTransitions s)) ui.
Proof. intros [] Hi. split; try done. by right. Qed.

Lemma listViewItemClicked_item_unfold s item ui :
  listViewItemClicked_item s (mScreenTransitionListView s) item ui =
    (mkFirstScreen (mScreen s) (mMainLayout s) (mListLayout s) (mFooterLayout s)
       (mShowSecondScreenButton s) (mTitleLabel s) (mScreenTransitionListView s)
       (Some item) (mSelectedListItem s) (mPlatformTransitions s),
     after_item_click s ui item).
Proof.
  unfold listViewItemClicked_item. rewrite decide_True by done.
  by rewrite !st_bind_unit.
Qed.

(** Both call orders of the two overloads give [select_item]. *)
Lemma item_first_select s ui lv item i :
  (listViewItemClicked_index (fst (listViewItemClicked_item s lv item ui)) lv i,
   snd (listViewItemClicked_item s lv item ui)) = select_item s ui lv item i.
Proof.
  unfold select_item. case_decide as Hlv.
  - subst lv. rewrite listViewItemClicked_item_unfold. unfold listViewItemClicked_index.
    by rewrite decide_True.
  - unfold listViewItemClicked_item. rewrite decide_False by done. simpl.
    unfold listViewItemClicked_index. by rewrite decide_False.
Qed.

Lemma index_first_select s ui lv item i :
  listViewItemClicked_item (listViewItemClicked_index s lv i) lv item ui =
    select_item s ui lv item i.
Proof.
  unfold select_item, listViewItemClicked_index. case_decide as Hlv.
  - subst lv. exact (listViewItemClicked_item_unfold (mkFirstScreen (mScreen s) (mMainLayout s)
      (mListLayout s) (mFooterLayout s) (mShowSecondScreenButton s) (mTitleLabel s)
      (mScreenTransitionListView s) (mPreviousItem s) i (mPlatformTransitions s)) item ui).
  - unfold listViewItemClicked_item. by rewrite decide_False.
Qed.

Lemma after_item_click_equiv s ui item : ui_equiv ui (after_item_click s ui item).
Proof.
  unfold after_item_click. rewrite <-set_highlight_equiv.
  destruct (mPreviousItem s); [apply set_highlight_equiv|done].
Qed.

Lemma after_item_click_highlight s ui item h :
  structure_wf s ui -> highlight_wf s ui -> item ∈ list_items s ui ->
  h ∈ list_items s ui ->
  highlighted_of (after_item_click s ui item) h = Some (bool_decide (h = item)).
Proof.
  intros Hwf Hhl Hitem Hh. unfold highlight_wf in Hhl. rewrite Forall_forall in Hhl. unfold after_item_click. rewrite set_highlight_lookup.
  destruct (decide (h = item)) as [->|Hne].
  - rewrite bool_decide_eq_true_2 by done.
    destruct (list_item_in_store s ui item Hwf Hitem) as [w Hw].
    destruct (mPreviousItem s); [|by cbn; rewrite Hw].
    rewrite widget_set_property_lookup, Hw. by case_decide.
  - rewrite bool_decide_eq_false_2 by done. specialize (Hhl h Hh).
    destruct (mPreviousItem s) as [p|]; [|by cbn; rewrite Hhl, bool_decide_eq_false_2].
    rewrite set_highlight_lookup. destruct (decide (h = p)) as [<-|Hp].
    + destruct (list_item_in_store s ui h Hwf Hh) as [w Hw]. by rewrite Hw.
    + by rewrite Hhl, bool_decide_eq_false_2 by congruence.
Qed.

(** ** Theorems *)

(** The item handler keeps the invariant, provided a click on the
    screen's list view comes with one of its items (what the toolkit
    delivers). *)
Lemma listViewItemClicked_item_wf s ui lv item :
  screen_wf s ui ->
  (lv = mScreenTransitionListView s -> item ∈ list_items s ui) ->
  screen_wf (fst (listViewItemClicked_item s lv item ui))
            (snd (listViewItemClicked_item s lv item ui)).
Proof.
  intros [Hwf Hhl] Hitem. destruct (decide (lv = mScreenTransitionListView s)) as [->|Hne].
  2:{ unfold listViewItemClicked_item. by rewrite decide_False. }
  specialize (Hitem eq_refl). rewrite listViewItemClicked_item_unfold. simpl.
  pose proof (after_item_click_equiv s ui item) as Heq. split.
  - rewrite <-Heq. by apply structure_wf_previous.
  - unfold highlight_wf. rewrite Forall_forall. intros h Hh.
    rewrite <-(ui_equiv_list_items _ _ _ Heq) in Hh.
    rewrite (after_item_click_highlight s ui item h) by done.
    f_equal. apply bool_decide_ext. naive_solver.
Qed.

(** C4: after a click on an item of the list, that item is highlighted
    and every other item of the list is not. *)
Theorem listViewItemClicked_item_highlights_only_clicked s ui item h :
  screen_wf s ui -> item ∈ list_items s ui -> h ∈ list_items s ui ->
  highlighted_of (snd (listViewItemClicked_item s (mScreenTransitionListView s) item ui)) h
  = Some (bool_decide (h = item)).
Proof.
  intros [Hwf Hhl] Hitem Hh. rewrite listViewItemClicked_item_unfold.
  by apply after_item_click_highlight.
Qed.

(** The code the button reports, whatever the platform. *)
Lemma buttonClicked_unfold {Obs} `{FirstScreenObserver Obs} s ui (o : Obs) :
  buttonClicked s (mShowSecondScreenButton s) ui o =
    transitionSelected o
      (lookup_transition (platform_transitions (ui_platform ui)) (mSelectedListItem s)).
Proof. unfold buttonClicked. rewrite decide_True by done. by destruct (ui_platform ui). Qed.

(** The index handler keeps the invariant, provided a click on the
    screen's list view comes with an index of the list. *)
Lemma listViewItemClicked_index_wf s ui lv i :
  screen_wf s ui ->
  (lv = mScreenTransitionListView s -> (0 <= i < Z.of_nat (length (list_items s ui)))%Z) ->
  screen_wf (listViewItemClicked_index s lv i) ui.
Proof.
  intros [Hwf Hhl] Hi. unfold listViewItemClicked_index.
  case_decide as Hlv; [|done]. split; [by apply structure_wf_selected, Hi|done].
Qed.

(** A click on the screen's button reports to the observer, exactly
    once, the code of the transition named by the list item at the
    selected index; that code is also the container's entry there. *)
Lemma buttonClicked_reports_shown_transition {Obs} `{FirstScreenObserver Obs}
    s ui (o : Obs) :
  screen_wf s ui ->
  (0 <= mSelectedListItem s < Z.of_nat (length (list_items s ui)))%Z ->
  exists item name code,
    zlookup (list_items s ui) (mSelectedListItem s) = Some item /\
    text_of ui item = Some name /\
    zlookup (platform_transitions (ui_platform ui)) (mSelectedListItem s) = Some (name, code) /\
    zlookup (mPlatformTransitions s) (mSelectedListItem s) = Some code /\
    buttonClicked s (mShowSecondScreenButton s) ui o = transitionSelected o code.
Proof.
  intros [Hwf _] Hsel. rewrite buttonClicked_unfold.
  rewrite !zlookup_nonneg by lia. set (n := Z.to_nat (mSelectedListItem s)).
  destruct (lookup_lt_is_Some_2 (list_items s ui) n) as [item Hitem]; [lia|].
  destruct (Forall2_lookup_l _ _ _ _ _ (sw_items _ _ Hwf) Hitem) as (name&Hname&_&Htext).
  unfold transition_names in Hname. rewrite list_lookup_fmap in Hname.
  apply fmap_Some in Hname as ([name' code]&Hentry&->).
  exists item, name', code. split_and!; [done|done|done| |].
  - rewrite (sw_container _ _ Hwf). unfold transition_codes.
    by rewrite list_lookup_fmap, Hentry.
  - unfold lookup_transition. rewrite zlookup_nonneg by lia. fold n. by rewrite Hentry.
Qed.


(** C7: each handler ignores events whose source is not its widget. *)
Theorem handlers_ignore_other_widgets {Obs} `{FirstScreenObserver Obs}
    s ui (o : Obs) w item i :
  w <> mScreenTransitionListView s -> w <> mShowSecondScreenButton s ->
  listViewItemClicked_item s w item ui = (s, ui) /\
  listViewItemClicked_index s w i = s /\
  buttonClicked s w ui o = o.
Proof.
  intros Hlv Hb. unfold listViewItemClicked_item, listViewItemClicked_index, buttonClicked.
  by rewrite !decide_False.
Qed.

(** C6: the two [listViewItemClicked] overloads commute: whichever the
    toolkit calls first, the screen and the store end the same. *)
Theorem listViewItemClicked_overloads_commute s ui lv item i :
  listViewItemClicked_item (listViewItemClicked_index s lv i) lv item ui =
    (listViewItemClicked_index (fst (listViewItemClicked_item s lv item ui)) lv i,
     snd (listViewItemClicked_item s lv item ui)).
Proof. by rewrite index_first_select, item_first_select. Qed.


(** C23: the button's per-platform lookup agrees with the container:
    on a well-formed screen it reports [mPlatformTransitions] at the
    selected index, or [MAW_TRANSITION_TYPE_NONE] where the container
    has no entry. *)
Theorem buttonClicked_reports_container_entry {Obs} `{FirstScreenObserver Obs} s ui (o : Obs) :
  structure_wf s ui ->
  buttonClicked s (mShowSecondScreenButton s) ui o =
    transitionSelected o
      (default MAW_TRANSITION_TYPE_NONE (zlookup (mPlatformTransitions s) (mSelectedListItem s))).
Proof.
  intros Hwf. rewrite buttonClicked_unfold, (sw_container _ _ Hwf).
  unfold transition_codes, lookup_transition. rewrite zlookup_fmap.
  by destruct (zlookup _ _) as [[]|].
Qed.
End handlers.

#[local] Existing Instance demo_catalog.

Lemma listViewItemClicked_item_highlights_only_clicked_witness :
  let s := fst (new_FirstScreen demo_ui) in
  let ui := snd (new_FirstScreen demo_ui) in
  highlighted_of (snd (listViewItemClicked_item s (mScreenTransitionListView s) 8%N ui)) 9%N
  = Some (bool_decide (9%N = 8%N)).
Proof.
  intros s ui.
  apply listViewItemClicked_item_highlights_only_clicked;
    apply (bool_decide_unpack _); vm_compute; reflexivity.
Defined.

Lemma handlers_ignore_other_widgets_witness :
  let s := fst (new_FirstScreen demo_ui) in
  let ui := snd (new_FirstScreen demo_ui) in
  listViewItemClicked_item s 3%N 8%N ui = (s, ui) /\
  listViewItemClicked_index s 3%N 1%Z = s /\
  buttonClicked s 3%N ui ([] : list MAWScreenTransitionType) = [].
Proof.
  intros s ui. apply handlers_ignore_other_widgets; vm_compute; intros Heq; discriminate.
Defined.



Lemma buttonClicked_reports_container_entry_witness :
  let s := fst (new_FirstScreen demo_ui) in
  let ui := snd (new_FirstScreen demo_ui) in
  buttonClicked s (mShowSecondScreenButton s) ui ([] : list MAWScreenTransitionType) =
    transitionSelected []
      (default MAW_TRANSITION_TYPE_NONE (zlookup (mPlatformTransitions s) (mSelectedListItem s))).
Proof.
  intros s ui. apply buttonClicked_reports_container_entry.
  apply (bool_decide_unpack _); vm_compute; reflexivity.
Defined.
