(* ===== verification/Events.v ===== *)
(** * Events delivered to the first screen, and its reachable states

    The toolkit delivers a click on a widget to the listener installed on
    it.  A click on a button calls [buttonClicked]; a click on an item of
    a list view calls both [listViewItemClicked] overloads, with the item
    and with its index, in an order the header does not fix: the relation
    [deliver] allows either order.  A world is the screen, the widget
    store and the observer's state; the screen's implementations of the
    toolkit's [ButtonListener] and [ListViewListener] classes are
    instances on worlds, and [deliver_callbacks] shows that a delivered
    event is a call of these callbacks.  [reachable] closes the
    constructor's result under delivery.

    Theorems: every reachable world satisfies [screen_wf]; in every
    reachable world the highlighted item, if any, is the item at the
    selected index; and a click on the button in a reachable world
    reports the code paired, in the platform's catalogue, with the text
    of the highlighted item; the selected index stays within a non-empty
    list; a recording observer gets one notification per button click. *)

From stdpp Require Import base gmap strings list.
From Stdlib Require Import ZArith Lia.
From S2P Require Import Prelude NativeUI Transitions Observer FirstScreen Handlers Construction.

Inductive Event :=
  | ButtonClick (button : Handle)
  | ItemClick (listView : Handle) (index : Z).

(** A screen built on the empty iOS store of the examples, after a click
    on its second item (handle 9, index 1, list view 5), for any catalogue. *)
Definition demo_world1 `{TransitionCatalog} : FirstScreen * NativeUIState * list Z :=
  (listViewItemClicked_index
     (fst (listViewItemClicked_item (fst (new_FirstScreen demo_ui)) 5%N 9%N
             (snd (new_FirstScreen demo_ui)))) 5%N 1%Z,
   snd (listViewItemClicked_item (fst (new_FirstScreen demo_ui)) 5%N 9%N
          (snd (new_FirstScreen demo_ui))),
   []).

Section events.
Context `{TransitionCatalog} {Obs : Type} `{FirstScreenObserver Obs}.

Definition World : Type := FirstScreen * NativeUIState * Obs.

Inductive deliver : World -> Event -> World -> Prop :=
| deliver_button s ui o b :
    listener_of ui b = Some true ->
    deliver (s, ui, o) (ButtonClick b) (s, ui, buttonClicked s b ui o)
| deliver_item_first s ui o lv i items item :
    listener_of ui lv = Some true ->
    layout_of ui lv = Some (ListView, items) -> zlookup items i = Some item ->
    deliver (s, ui, o) (ItemClick lv i)
      (listViewItemClicked_index (fst (listViewItemClicked_item s lv item ui)) lv i,
       snd (listViewItemClicked_item s lv item ui), o)
| deliver_index_first s ui o lv i items item :
    listener_of ui lv = Some true ->
    layout_of ui lv = Some (ListView, items) -> zlookup items i = Some item ->
    deliver (s, ui, o) (ItemClick lv i)
      (fst (listViewItemClicked_item (listViewItemClicked_index s lv i) lv item ui),
       snd (listViewItemClicked_item (listViewItemClicked_index s lv i) lv item ui), o).

Inductive reachable : World -> Prop :=
| reachable_init ui o :
    ui_fresh_ok ui ->
    reachable (fst (new_FirstScreen ui), snd (new_FirstScreen ui), o)
| reachable_step w e w' : reachable w -> deliver w e w' -> reachable w'.

(** The screen is the listener of its button and its list view: the
    callbacks of the toolkit's listener classes on a world. *)
#[export] Instance screen_button_listener : ButtonListener World := {|
  buttonClicked_cb w b := let '(s, ui, o) := w in (s, ui, buttonClicked s b ui o)
|}.

#[export] Instance screen_list_view_listener : ListViewListener World := {|
  listViewItemClicked_item_cb w lv item :=
    let '(s, ui, o) := w in
    (fst (listViewItemClicked_item s lv item ui), snd (listViewItemClicked_item s lv item ui), o);
  listViewItemClicked_index_cb w lv i :=
    let '(s, ui, o) := w in (listViewItemClicked_index s lv i, ui, o)
|}.

(** A run: events delivered one after the other. *)
Inductive deliver_run : World -> list Event -> World -> Prop :=
| run_nil w : deliver_run w [] w
| run_cons w e w' es w'' : deliver w e w' -> deliver_run w' es w'' -> deliver_run w (e :: es) w''.

(** The highlighted item, if any, is the item at the selected index. *)
Definition selection_sync (s : FirstScreen) (ui : NativeUIState) : Prop :=
  forall h, mPreviousItem s = Some h ->
    zlookup (list_items s ui) (mSelectedListItem s) = Some h.

Definition world_inv (w : World) : Prop :=
  let '(s, ui, _) := w in screen_wf s ui /\ selection_sync s ui.

(** ** Lemmas *)

(** A delivered event is a call of the screen's listener callbacks: the
    button's, or both list overloads in one order or the other. *)
Lemma deliver_callbacks w e w' :
  deliver w e w' ->
  match e with
  | ButtonClick b => w' = buttonClicked_cb w b
  | ItemClick lv i => exists item,
      w' = listViewItemClicked_index_cb (listViewItemClicked_item_cb w lv item) lv i \/
      w' = listViewItemClicked_item_cb (listViewItemClicked_index_cb w lv i) lv item
  end.
Proof. intros []; simpl; [done|eauto..]. Qed.

Lemma list_items_index s ui lv i :
  list_items (listViewItemClicked_index s lv i) ui = list_items s ui.
Proof. unfold listViewItemClicked_index. by case_decide. Qed.

Lemma list_items_item s ui lv item :
  list_items (fst (listViewItemClicked_item s lv item ui))
    (snd (listViewItemClicked_item s lv item ui)) = list_items s ui.
Proof.
  destruct (decide (lv = mScreenTransitionListView s)) as [->|Hne].
  - rewrite listViewItemClicked_item_unfold. simpl.
    transitivity (list_items s (after_item_click s ui item)); [reflexivity|].
    symmetry. apply ui_equiv_list_items, after_item_click_equiv.
  - unfold listViewItemClicked_item. by rewrite decide_False.
Qed.

(** What a click on the screen's own list view hands the handlers. *)
Lemma own_list_click s ui lv i items item :
  layout_of ui lv = Some (ListView, items) -> zlookup items i = Some item ->
  lv = mScreenTransitionListView s ->
  item ∈ list_items s ui /\ (0 <= i < Z.of_nat (length (list_items s ui)))%Z /\
  zlookup (list_items s ui) i = Some item.
Proof.
  intros Hlv Hi ->. unfold list_items. rewrite Hlv. simpl.
  split_and!; [by eapply zlookup_elem| | |done]; apply zlookup_Some in Hi; lia.
Qed.

(** A click on an item of a list view, whichever overload runs first,
    keeps the invariant. *)
Lemma select_item_inv s ui o lv i items item :
  world_inv (s, ui, o) -> layout_of ui lv = Some (ListView, items) ->
  zlookup items i = Some item ->
  world_inv (fst (select_item s ui lv item i), snd (select_item s ui lv item i), o).
Proof.
  intros [Hwf Hsync] Hlv Hi. rewrite <-item_first_select. simpl. split.
  - apply listViewItemClicked_index_wf.
    + apply listViewItemClicked_item_wf; [done|]. intros Heq.
      by destruct (own_list_click s ui lv i items item Hlv Hi Heq) as (?&_&_).
    + rewrite list_items_item. intros Heq.
      assert (lv = mScreenTransitionListView s) as Heq'.
      { revert Heq. unfold listViewItemClicked_item. by case_decide. }
      by destruct (own_list_click s ui lv i items item Hlv Hi Heq') as (_&?&_).
  - intros h. rewrite list_items_index, list_items_item.
    unfold listViewItemClicked_index, listViewItemClicked_item.
    destruct (decide (lv = mScreenTransitionListView s)) as [Heq|Hne].
    + rewrite !st_bind_unit. simpl. rewrite decide_True by done. simpl.
      intros [= <-]. by destruct (own_list_click s ui lv i items item Hlv Hi Heq) as (_&_&?).
    + simpl. rewrite decide_False by done. apply Hsync.
Qed.

(** A delivered click on a list is [select_item] on the clicked item. *)
Lemma deliver_item_select s ui o lv i w' :
  deliver (s, ui, o) (ItemClick lv i) w' ->
  exists items item, layout_of ui lv = Some (ListView, items) /\
    zlookup items i = Some item /\ listener_of ui lv = Some true /\
    w' = (fst (select_item s ui lv item i), snd (select_item s ui lv item i), o).
Proof.
  inversion 1 as [|? ? ? ? ? items item ?? Hi|? ? ? ? ? items item ?? Hi]; subst;
    exists items, item; split_and!; try done.
  - by rewrite <-item_first_select.
  - by rewrite index_first_select.
Qed.

Lemma deliver_inv w e w' : world_inv w -> deliver w e w' -> world_inv w'.
Proof.
  intros Hinv Hd. destruct w as [[s ui] o], e as [b|lv i].
  - by inversion Hd.
  - apply deliver_item_select in Hd as (items&item&Hlv&Hi&_&->).
    by eapply select_item_inv.
Qed.

(** Delivery keeps the screen's widgets and the platform. *)
Lemma deliver_preserves s ui o e s' ui' o' :
  deliver (s, ui, o) e (s', ui', o') ->
  mShowSecondScreenButton s' = mShowSecondScreenButton s /\
  mScreenTransitionListView s' = mScreenTransitionListView s /\
  ui_platform ui' = ui_platform ui.
Proof.
  destruct e as [b|lv i]; [by inversion 1|].
  intros (items&item&_&_&_&Hw)%deliver_item_select. injection Hw as -> -> ->.
  unfold select_item. case_decide; [|done]. simpl. split_and!; [done|done|].
  symmetry. apply (after_item_click_equiv s ui item).
Qed.

Lemma reachable_run w es w' : reachable w -> deliver_run w es w' -> reachable w'.
Proof. intros Hr Hrun. induction Hrun; eauto using reachable. Qed.

Lemma reachable_world_inv w : reachable w -> world_inv w.
Proof.
  induction 1 as [ui o Hok|w e w' _ IH Hd].
  - split; [by apply new_FirstScreen_wf|]. intros h. by rewrite new_FirstScreen_fst.
  - by eapply deliver_inv.
Qed.

Lemma world_inv_highlighted s ui o h :
  world_inv (s, ui, o) -> h ∈ list_items s ui -> highlighted_of ui h = Some true ->
  mPreviousItem s = Some h /\ zlookup (list_items s ui) (mSelectedListItem s) = Some h.
Proof.
  intros [[_ Hhl] Hsync] Hh Htrue. unfold highlight_wf in Hhl. rewrite Forall_forall in Hhl.
  rewrite Hhl in Htrue by done. injection Htrue as Hb%bool_decide_eq_true.
  split; [done|by apply Hsync].
Qed.

(** ** Theorems *)

(** C1: every reachable world satisfies the invariant [screen_wf]: the
    widget tree, the list mirroring the catalogue, the listeners, the
    container and the highlight of exactly the previous item. *)
Theorem reachable_screen_wf s ui o : reachable (s, ui, o) -> screen_wf s ui.
Proof. intros Hr. by destruct (reachable_world_inv _ Hr). Qed.

(** C2: in every reachable world a highlighted item of the list is the
    item at the selected index (so at most one item is highlighted, and
    what is shown selected is what the button will use). *)
Theorem reachable_highlight_is_selected s ui o h :
  reachable (s, ui, o) -> h ∈ list_items s ui -> highlighted_of ui h = Some true ->
  zlookup (list_items s ui) (mSelectedListItem s) = Some h.
Proof.
  intros Hr Hh Htrue. by destruct (world_inv_highlighted s ui o h (reachable_world_inv _ Hr)
    Hh Htrue).
Qed.

(** C3: in a reachable world with a highlighted item, a click on the
    button reports to the observer the code that the platform's
    catalogue pairs with the text the highlighted item shows. *)
Theorem reachable_button_reports_highlighted s ui o h :
  reachable (s, ui, o) -> h ∈ list_items s ui -> highlighted_of ui h = Some true ->
  exists name code,
    text_of ui h = Some name /\
    zlookup (platform_transitions (ui_platform ui)) (mSelectedListItem s) = Some (name, code) /\
    buttonClicked s (mShowSecondScreenButton s) ui o = transitionSelected o code.
Proof.
  intros Hr Hh Htrue. pose proof (reachable_world_inv _ Hr) as Hinv.
  destruct (world_inv_highlighted s ui o h Hinv Hh Htrue) as [_ Hsel].
  destruct Hinv as [Hwf _].
  destruct (buttonClicked_reports_shown_transition s ui o Hwf) as (h'&name&code&Hh'&?&?&_&?).
  { apply zlookup_Some in Hsel. lia. }
  rewrite Hsel in Hh'. injection Hh' as <-. by exists name, code.
Qed.

(** C11: in every reachable world whose list is not empty, the selected
    index is an index of the list. *)
Theorem reachable_selected_in_bounds s ui o :
  reachable (s, ui, o) -> list_items s ui <> [] ->
  (0 <= mSelectedListItem s < Z.of_nat (length (list_items s ui)))%Z.
Proof.
  intros Hr Hne. destruct (reachable_world_inv _ Hr) as [[Hwf _] _].
  destruct (sw_selected _ _ Hwf) as [->|]; [|done].
  destruct (list_items s ui); [done|]. simpl. lia.
Qed.
(** Read back, the texts of a list of items are the names they carry. *)
Lemma omap_texts ui items names :
  Forall2 (fun h name => layout_of ui h = Some (ListViewItem, []) /\ text_of ui h = Some name)
    items names ->
  omap (text_of ui) items = names.
Proof.
  induction 1 as [|h name items names [_ Ht] _ IH]; [done|]. simpl. rewrite Ht. f_equal. exact IH.
Qed.

(** C16: from every reachable world, every transition of the platform's
    catalogue can be chosen: a click on the list at its index is
    delivered, and a click on the button then reports its code. *)
Theorem reachable_every_transition_selectable s ui o n name code :
  reachable (s, ui, o) -> platform_transitions (ui_platform ui) !! n = Some (name, code) ->
  exists s' ui',
    deliver (s, ui, o) (ItemClick (mScreenTransitionListView s) (Z.of_nat n)) (s', ui', o) /\
    buttonClicked s' (mShowSecondScreenButton s') ui' o = transitionSelected o code.
Proof.
  intros Hr Hn. destruct (reachable_world_inv _ Hr) as [[Hwf _] _].
  destruct (lookup_lt_is_Some_2 (list_items s ui) n) as [item Hitem].
  { rewrite (Forall2_length _ _ _ (sw_items _ _ Hwf)). unfold transition_names.
    rewrite length_fmap. by eapply lookup_lt_Some. }
  pose proof (deliver_item_first s ui o _ (Z.of_nat n) _ item (sw_list_view_listener _ _ Hwf)
    (sw_list_view _ _ Hwf) ltac:(by rewrite zlookup_of_nat)) as Hd.
  pose proof (deliver_preserves _ _ _ _ _ _ _ Hd) as (_&_&Hp).
  eexists _, _. split; [exact Hd|]. rewrite buttonClicked_unfold, Hp.
  rewrite listViewItemClicked_item_unfold. unfold listViewItemClicked_index.
  rewrite decide_True by done. simpl.
  unfold lookup_transition. by rewrite zlookup_of_nat, Hn.
Qed.


(** C26: in every reachable world the list shows exactly one
    highlighted item once an item has been selected, and none before. *)
Theorem reachable_highlight_count s ui o :
  reachable (s, ui, o) ->
  length (filter (fun h => highlighted_of ui h = Some true) (list_items s ui)) =
    match mPreviousItem s with Some _ => 1 | None => 0 end.
Proof.
  intros Hr. destruct (reachable_world_inv _ Hr) as [[Hwf Hhl] _]. unfold highlight_wf in Hhl.
  destruct (mPreviousItem s) as [p|] eqn:Ep.
  - rewrite (filter_ext_Forall _ (fun h => h = p)).
    + pose proof (sw_distinct _ _ Hwf) as (_&_&Hnd)%NoDup_app.
      rewrite filter_eq_NoDup by done. by rewrite decide_True by (by apply (sw_previous _ _ Hwf)).
    + eapply Forall_impl; [exact Hhl|]. intros h ->.
      split; [by intros [= ?%bool_decide_eq_true_1]; simplify_eq|].
      intros ->. by rewrite bool_decide_eq_true_2.
  - rewrite (filter_ext_Forall _ (fun _ => False)).
    + clear. induction (list_items s ui) as [|h l IH]; [done|]. rewrite filter_cons.
      destruct (decide _) as [[]|_]. exact IH.
    + eapply Forall_impl; [exact Hhl|]. intros h ->. done.
Qed.

End events.

(** C12: with the observer that records its notifications, a delivered
    event appends at most one notification, and a click on the screen's
    button appends exactly one. *)
Theorem deliver_trace `{TransitionCatalog} (w w' : FirstScreen * NativeUIState * list Z) e :
  deliver w e w' ->
  (snd w' = snd w \/ exists c, snd w' = snd w ++ [c]) /\
  (e = ButtonClick (mShowSecondScreenButton (fst (fst w))) -> exists c, snd w' = snd w ++ [c]).
Proof.
  intros Hd. destruct Hd as [s ui o b Hl|s ui o lv i items item|s ui o lv i items item];
    simpl; [|split; [by left|discriminate]..].
  unfold buttonClicked. case_decide as Hb; simpl.
  - split; [right|]; eauto.
  - split; [by left|]. intros [= ->]. done.
Qed.

(** ** Examples *)

#[local] Existing Instance demo_catalog.

Lemma demo_world1_reachable : reachable demo_world1.
Proof.
  apply (reachable_step (fst (new_FirstScreen demo_ui), snd (new_FirstScreen demo_ui), [])
           (ItemClick 5%N 1%Z)).
  - apply reachable_init, map_Forall_empty.
  - apply (deliver_item_first _ _ _ 5%N 1%Z [8%N; 9%N] 9%N); reflexivity.
Qed.

Lemma reachable_screen_wf_witness :
  screen_wf (fst (fst demo_world1)) (snd (fst demo_world1)).
Proof. apply (reachable_screen_wf _ _ (snd demo_world1)), demo_world1_reachable. Defined.

Lemma reachable_highlight_is_selected_witness :
  zlookup (list_items (fst (fst demo_world1)) (snd (fst demo_world1)))
    (mSelectedListItem (fst (fst demo_world1))) = Some 9%N.
Proof.
  apply (reachable_highlight_is_selected _ _ (snd demo_world1));
    [apply demo_world1_reachable|apply (bool_decide_unpack _); vm_compute; reflexivity|reflexivity].
Defined.

Lemma reachable_button_reports_highlighted_witness :
  exists name code,
    text_of (snd (fst demo_world1)) 9%N = Some name /\
    zlookup (platform_transitions (ui_platform (snd (fst demo_world1))))
      (mSelectedListItem (fst (fst demo_world1))) = Some (name, code) /\
    buttonClicked (fst (fst demo_world1)) (mShowSecondScreenButton (fst (fst demo_world1)))
      (snd (fst demo_world1)) (snd demo_world1) = transitionSelected (snd demo_world1) code.
Proof.
  apply (reachable_button_reports_highlighted _ _ (snd demo_world1));
    [apply demo_world1_reachable|apply (bool_decide_unpack _); vm_compute; reflexivity|reflexivity].
Defined.

Lemma reachable_selected_in_bounds_witness :
  (0 <= mSelectedListItem (fst (fst demo_world1)) <
     Z.of_nat (length (list_items (fst (fst demo_world1)) (snd (fst demo_world1)))))%Z.
Proof.
  apply (reachable_selected_in_bounds _ _ (snd demo_world1));
    [apply demo_world1_reachable|vm_compute; discriminate].
Defined.

Lemma deliver_trace_witness :
  exists c, buttonClicked (fst (fst demo_world1)) 7%N (snd (fst demo_world1)) (snd demo_world1)
            = snd demo_world1 ++ [c].
Proof.
  apply (proj2 (deliver_trace demo_world1
    (fst (fst demo_world1), snd (fst demo_world1),
     buttonClicked (fst (fst demo_world1)) 7%N (snd (fst demo_world1)) (snd demo_world1))
    (ButtonClick 7%N) ltac:(apply deliver_button; reflexivity))).
  reflexivity.
Defined.

Lemma reachable_every_transition_selectable_witness :
  exists s' ui',
    deliver demo_world1 (ItemClick (mScreenTransitionListView (fst (fst demo_world1))) 0%Z)
      (s', ui', snd demo_world1) /\
    buttonClicked s' (mShowSecondScreenButton s') ui' (snd demo_world1) =
      transitionSelected (snd demo_world1) 1%Z.
Proof.
  apply (reachable_every_transition_selectable (fst (fst demo_world1)) (snd (fst demo_world1))
           (snd demo_world1) 0 "FlipFromLeft"%string 1%Z);
    [apply demo_world1_reachable|reflexivity].
Defined.



Lemma reachable_highlight_count_witness :
  length (filter (fun h => highlighted_of (snd (fst demo_world1)) h = Some true)
            (list_items (fst (fst demo_world1)) (snd (fst demo_world1)))) = 1.
Proof.
  apply (reachable_highlight_count (fst (fst demo_world1)) (snd (fst demo_world1))
           (snd demo_world1) demo_world1_reachable).
Defined.
