(* ===== verification/Frame.v ===== *)
(** * The screen among other code: frame properties and interleaving

    The screen shares the toolkit's widget store with the rest of the
    application (the second screen, the application's own widgets).
    [owned] is the footprint of a screen: its seven widgets and its list
    items.  Other code's toolkit calls are [ToolkitCall]s of [NativeUI];
    [step_mixed] interleaves them with the events delivered to the screen,
    a call being allowed on any widget the screen does not own, and
    [reachable_mixed] closes construction under such steps.

    Theorems: the invariant of the screen holds in every world so
    reached; a delivered event changes no widget outside the screen's
    footprint and allocates nothing; construction leaves every existing
    widget as it was and takes only fresh handles. *)

From stdpp Require Import base gmap strings list.
From Stdlib Require Import ZArith Lia.
From S2P Require Import Prelude NativeUI Transitions Observer FirstScreen Construction Handlers Events.

#[local] Set Warnings "-clear-no-such-hyp".

(** The widgets a screen owns. *)
Definition owned (s : FirstScreen) (ui : NativeUIState) : list Handle :=
  screen_handles s ++ list_items s ui.

Section mixed.
Context `{TransitionCatalog} {Obs : Type} `{FirstScreenObserver Obs}.

Inductive step_mixed : FirstScreen * NativeUIState * Obs -> FirstScreen * NativeUIState * Obs -> Prop :=
| mixed_event w e w' : deliver w e w' -> step_mixed w w'
| mixed_call s ui o c :
    (forall h, call_target c = Some h -> h ∉ owned s ui) ->
    step_mixed (s, ui, o) (s, snd (run_call c ui), o).

Inductive reachable_mixed : FirstScreen * NativeUIState * Obs -> Prop :=
| mixed_init ui o :
    ui_fresh_ok ui -> reachable_mixed (fst (new_FirstScreen ui), snd (new_FirstScreen ui), o)
| mixed_step w w' : reachable_mixed w -> step_mixed w w' -> reachable_mixed w'.
End mixed.

(** ** Lemmas *)

Ltac owned_mem := unfold owned, screen_handles; set_solver.

Lemma views_agree ui ui' h :
  ui_widgets ui' !! h = ui_widgets ui !! h ->
  layout_of ui' h = layout_of ui h /\ text_of ui' h = text_of ui h /\
  listener_of ui' h = listener_of ui h /\ highlighted_of ui' h = highlighted_of ui h.
Proof.
  intros Hh. unfold layout_of, text_of, listener_of, highlighted_of, shape_of.
  by rewrite Hh.
Qed.

Section frame.
Context `{TransitionCatalog}.
Implicit Types (s : FirstScreen) (ui : NativeUIState).

Lemma owned_in_store s ui h :
  structure_wf s ui -> h ∈ owned s ui -> is_Some (ui_widgets ui !! h).
Proof.
  intros Hwf Hh. unfold owned in Hh. apply elem_of_app in Hh as [Hh|Hh];
    [|by apply (list_item_in_store s ui h Hwf)].
  assert (forall h, layout_of ui h <> None -> is_Some (ui_widgets ui !! h)) as Hl.
  { intros h' Hh'. unfold layout_of, shape_of in Hh'.
    destruct (ui_widgets ui !! h'); [done|by destruct Hh']. }
  unfold screen_handles in Hh. repeat (apply elem_of_cons in Hh as [->|Hh]);
    [| | | | | | |by apply elem_of_nil in Hh]; apply Hl;
    by rewrite ?(sw_screen _ _ Hwf), ?(sw_main _ _ Hwf), ?(sw_title _ _ Hwf),
      ?(sw_list_layout _ _ Hwf), ?(sw_list_view _ _ Hwf), ?(sw_footer _ _ Hwf),
      ?(sw_button _ _ Hwf).
Qed.

(** The screen's invariant depends only on the widgets it owns. *)
Lemma world_inv_frame {Obs} `{FirstScreenObserver Obs} s ui ui' (o o' : Obs) :
  world_inv (s, ui, o) -> ui_fresh_ok ui' -> ui_platform ui' = ui_platform ui ->
  (forall h, h ∈ owned s ui -> ui_widgets ui' !! h = ui_widgets ui !! h) ->
  world_inv (s, ui', o').
Proof.
  intros [[Hwf Hhl] Hsync] Hok Hp Hag.
  pose proof (fun h Hh => views_agree ui ui' h (Hag h Hh)) as Hv.
  assert (list_items s ui' = list_items s ui) as Hli.
  { unfold list_items. by rewrite (proj1 (Hv (mScreenTransitionListView s) ltac:(owned_mem))). }
  assert (forall h, h ∈ screen_handles s -> layout_of ui' h = layout_of ui h) as Hla.
  { intros h Hh. apply Hv. unfold owned. set_solver. }
  assert (forall h, h ∈ screen_handles s -> listener_of ui' h = listener_of ui h) as Hlis.
  { intros h Hh. apply Hv. unfold owned. set_solver. }
  split; [split|].
  - destruct Hwf; split; rewrite ?Hli, ?Hp; try done;
      rewrite ?Hla, ?Hlis by (unfold screen_handles; set_solver); try done.
    eapply Forall2_impl_in; [|done]. intros h name Hh [Hl Ht].
    destruct (Hv h ltac:(owned_mem)) as (->&->&_). done.
  - unfold highlight_wf in *. rewrite Hli. rewrite Forall_forall in *. intros h Hh.
    destruct (Hv h ltac:(owned_mem)) as (_&_&_&->). by apply Hhl.
  - intros h. rewrite Hli. apply Hsync.
Qed.

(** The item handler writes only the clicked item and the previous one. *)
Lemma after_item_click_frame s ui item h :
  h <> item -> mPreviousItem s <> Some h ->
  ui_widgets (after_item_click s ui item) !! h = ui_widgets ui !! h.
Proof.
  intros Hi Hp. unfold after_item_click. rewrite widget_set_property_lookup, decide_False by done.
  destruct (mPreviousItem s) as [p|]; [|done].
  rewrite widget_set_property_lookup, decide_False; [done|]. by intros ->.
Qed.

Lemma new_FirstScreen_items ui :
  ui_fresh_ok ui ->
  list_items (fst (new_FirstScreen ui)) (snd (new_FirstScreen ui)) =
    fresh_handles (ui_next ui + 7) (length (transition_names (ui_platform ui))).
Proof.
  intros Hok. destruct (new_FirstScreen_store ui Hok) as (_&_&_&Hl).
  unfold list_items, layout_of, shape_of. rewrite new_FirstScreen_fst. simpl.
  rewrite Hl. by decide_simpl.
Qed.

(** Construction writes no widget below the counter. *)
Lemma new_FirstScreen_keeps ui h :
  ui_fresh_ok ui -> (h < ui_next ui)%N ->
  ui_widgets (snd (new_FirstScreen ui)) !! h = ui_widgets ui !! h.
Proof.
  intros Hok Hh. destruct (new_FirstScreen_store ui Hok) as (_&_&_&Hl).
  rewrite Hl. by decide_simpl.
Qed.

(** The handles of the new screen are those from the counter on: each
    was free, and every handle from the counter on that the screen does
    not own is still free. *)
Lemma new_FirstScreen_owned_iff ui h :
  ui_fresh_ok ui ->
  h ∈ owned (fst (new_FirstScreen ui)) (snd (new_FirstScreen ui)) <->
  (ui_next ui <= h)%N /\ is_Some (ui_widgets (snd (new_FirstScreen ui)) !! h).
Proof.
  intros Hok. destruct (new_FirstScreen_store ui Hok) as (_&_&_&Hl).
  unfold owned. rewrite new_FirstScreen_items by done. rewrite new_FirstScreen_fst.
  set (n := ui_next ui). set (len := length (transition_names (ui_platform ui))).
  assert (forall h, h ∈ fresh_handles (n + 7) len <-> (n + 7 <= h < n + 7 + N.of_nat len)%N)
    as Hfh.
  { intros x. split.
    - intros (j&(Hj&->)%fresh_handles_lookup_Some)%list_elem_of_lookup. lia.
    - intros Hx. apply (list_elem_of_lookup_2 _ (N.to_nat (x - (n + 7)))).
      rewrite fresh_handles_lookup by lia. f_equal. lia. }
  rewrite elem_of_app, Hfh, Hl. unfold screen_handles. simpl. rewrite !elem_of_cons, elem_of_nil.
  destruct (decide (n <= h)%N) as [Hge|Hlt].
  - destruct (decide (n + 7 <= h)%N) as [Hge7|Hlt7].
    + decide_simpl. rewrite fmap_is_Some, lookup_lt_is_Some. fold len. split; [lia|].
      intros [_ ?]. lia.
    + assert (h = n \/ h = n + 1 \/ h = n + 2 \/ h = n + 3 \/ h = n + 4 \/
              h = n + 5 \/ h = n + 6)%N as Hc by lia.
      split; [intros _; destruct_or!; subst h; decide_simpl; done|]. intros _. lia.
  - split; [lia|]. intros [? _]. lia.
Qed.

End frame.

Section mixed_theorems.
Context `{TransitionCatalog} {Obs : Type} `{FirstScreenObserver Obs}.
Implicit Types (s : FirstScreen) (ui : NativeUIState) (o : Obs).

Lemma reachable_mixed_world_inv w : reachable_mixed w -> world_inv w.
Proof.
  induction 1 as [ui o Hok|w w' _ IH Hstep].
  - split; [by apply new_FirstScreen_wf|]. intros h. by rewrite new_FirstScreen_fst.
  - destruct Hstep as [w e w' Hd|s ui o c Hc]; [by eapply deliver_inv|].
    destruct IH as [[Hwf Hhl] Hsync] eqn:Hinv.
    destruct (run_call_frame c ui (owned s ui) (sw_fresh _ _ Hwf) Hc
                (fun h => owned_in_store s ui h Hwf)) as (Hok&Hp&Hag).
    by eapply world_inv_frame.
Qed.

(** C19: the screen's invariant holds in every world reached from
    construction by interleaving events delivered to the screen with
    other code's toolkit calls on widgets the screen does not own; the
    highlighted item is still the selected one. *)
Theorem reachable_mixed_screen_wf s ui o :
  reachable_mixed (s, ui, o) -> screen_wf s ui /\ selection_sync s ui.
Proof. apply reachable_mixed_world_inv. Qed.

(** A delivered event writes only widgets the screen owns. *)
Lemma deliver_frame s ui o e s' ui' o' :
  structure_wf s ui -> deliver (s, ui, o) e (s', ui', o') ->
  ui_next ui' = ui_next ui /\
  forall h, h ∉ owned s ui -> ui_widgets ui' !! h = ui_widgets ui !! h.
Proof.
  intros Hwf Hd. destruct e as [b|lv i]; [by inversion Hd|].
  apply deliver_item_select in Hd as (items&item&Hlv&Hi&_&Hw). injection Hw as -> -> ->.
  unfold select_item. case_decide as Heq; [|by split].
  split; [unfold after_item_click; by destruct (mPreviousItem s)|]. intros h Hh.
  destruct (own_list_click s ui lv i items item Hlv Hi Heq) as (Hitem&_&_).
  apply after_item_click_frame; [intros ->; apply Hh; owned_mem|].
  intros Hp. apply Hh. pose proof (sw_previous _ _ Hwf h Hp). owned_mem.
Qed.

(** A delivered event keeps the screen's widgets and its items. *)
Lemma deliver_keeps_owned s ui o e s' ui' o' :
  deliver (s, ui, o) e (s', ui', o') -> owned s' ui' = owned s ui.
Proof.
  destruct e as [b|lv i]; [by inversion 1|].
  intros (items&item&_&_&_&Hw)%deliver_item_select. injection Hw as -> -> ->.
  unfold owned. f_equal.
  - unfold select_item. by case_decide.
  - rewrite <-item_first_select. simpl. by rewrite list_items_index, list_items_item.
Qed.

(** C20: a delivered event changes no widget outside the screen's
    footprint and allocates no handle. *)
Theorem reachable_mixed_deliver_frame s ui o e s' ui' o' :
  reachable_mixed (s, ui, o) -> deliver (s, ui, o) e (s', ui', o') ->
  ui_next ui' = ui_next ui /\
  forall h, h ∉ owned s ui -> ui_widgets ui' !! h = ui_widgets ui !! h.
Proof.
  intros Hr Hd. destruct (reachable_mixed_world_inv _ Hr) as [[Hwf _] _].
  by eapply deliver_frame.
Qed.
End mixed_theorems.

(** ** Examples *)

#[local] Existing Instance demo_catalog.

Lemma reachable_mixed_screen_wf_witness :
  let s := fst (new_FirstScreen demo_ui) in
  let ui := snd (run_call (CallCreate Label) (snd (new_FirstScreen demo_ui))) in
  screen_wf s ui /\ selection_sync s ui.
Proof.
  intros s ui. apply (reachable_mixed_screen_wf s ui ([] : list MAWScreenTransitionType)).
  eapply (mixed_step (fst (new_FirstScreen demo_ui), snd (new_FirstScreen demo_ui), []));
    [apply mixed_init, map_Forall_empty|].
  apply mixed_call. intros h Hh. discriminate.
Defined.

Lemma reachable_mixed_deliver_frame_witness :
  ui_next (snd (fst demo_world1)) = ui_next (snd (new_FirstScreen demo_ui)) /\
  forall h, h ∉ owned (fst (new_FirstScreen demo_ui)) (snd (new_FirstScreen demo_ui)) ->
    ui_widgets (snd (fst demo_world1)) !! h = ui_widgets (snd (new_FirstScreen demo_ui)) !! h.
Proof.
  apply (reachable_mixed_deliver_frame (fst (new_FirstScreen demo_ui)) (snd (new_FirstScreen demo_ui))
    [] (ItemClick 5%N 1%Z) (fst (fst demo_world1)) (snd (fst demo_world1)) (snd demo_world1)).
  - apply mixed_init, map_Forall_empty.
  - apply (deliver_item_first _ _ _ 5%N 1%Z [8%N; 9%N] 9%N); reflexivity.
Defined.

