(* ===== verification/Destructor.v ===== *)
(** * Destruction of the first screen

    [delete_FirstScreen] models [FirstScreen::~FirstScreen] followed by
    the destructors of its bases: the screen stops listening to its
    button and its list view, then the [Screen] base destructor deletes
    the widget tree under the screen ([widget_destroy], the toolkit's
    recursive [Widget] destructor).  The tree the constructor builds has
    depth 5 (screen, main layout, list layout, list view, item): with at
    least that much fuel the destructor frees exactly the screen's seven
    widgets and its items and leaves every other widget of the store as
    it was; with one unit less it leaks the items.

    Composed with construction and delivered events ([Construction],
    [Events], [Frame]): destroying the screen after any run returns the
    widget store to exactly the map it was before construction, and a
    destroyed screen is inert under every event the toolkit can still
    deliver. *)

From stdpp Require Import base gmap strings list.
From Stdlib Require Import ZArith Lia.
From S2P Require Import Prelude NativeUI Transitions Observer FirstScreen Construction Handlers Events Frame.

Local Open Scope st_scope.

Section operations.
Context `{TransitionCatalog}.

Definition delete_FirstScreen (fuel : nat) (s : FirstScreen) : St NativeUIState unit :=
  widget_set_listener (mShowSecondScreenButton s) false ;;;
  widget_set_listener (mScreenTransitionListView s) false ;;;
  widget_destroy fuel (mScreen s).
End operations.

(** The depth of the widget tree of a screen. *)
Definition FirstScreen_depth : nat := 5.

(** For the examples: a store that already holds another screen's button, with a listener. *)
Definition demo_shared_ui : NativeUIState :=
  mkUI {[1%N := mkWidget Button [] "" false true]} 2%N iOS.

(** ** The subtree of a well-formed screen *)

Lemma children_of_layout ui h k cs :
  layout_of ui h = Some (k, cs) -> children_of ui h = Some cs.
Proof.
  unfold layout_of, shape_of, children_of.
  destruct (ui_widgets ui !! h); simpl; [|done]. by intros [= _ ->].
Qed.

Lemma subtree_node f ui h k cs :
  layout_of ui h = Some (k, cs) -> subtree (S f) ui h = h :: mjoin (subtree f ui <$> cs).
Proof. intros Hl. simpl. by rewrite (children_of_layout _ _ _ _ Hl). Qed.

Lemma subtree_leaf f ui h k :
  layout_of ui h = Some (k, []) -> subtree (S f) ui h = [h].
Proof. intros Hl. by rewrite (subtree_node f ui h k [] Hl). Qed.

Lemma subtree_leaves f ui (l : list Handle) :
  Forall (fun h => exists k, layout_of ui h = Some (k, [])) l ->
  mjoin (subtree (S f) ui <$> l) = l.
Proof.
  induction 1 as [|h l [k Hk] _ IH]; [done|].
  rewrite fmap_cons. change (mjoin (?a :: ?b)) with (a ++ mjoin b).
  by rewrite (subtree_leaf f ui h k Hk), IH.
Qed.

Lemma subtree_zero_join ui (l : list Handle) : mjoin (subtree 0 ui <$> l) = [].
Proof. by induction l. Qed.

Section screen.
Context `{TransitionCatalog}.
Implicit Types (s : FirstScreen) (ui : NativeUIState).

Lemma items_leaves s ui :
  structure_wf s ui -> Forall (fun h => exists k, layout_of ui h = Some (k, [])) (list_items s ui).
Proof.
  intros Hwf. apply Forall_lookup. intros i h Hh.
  destruct (Forall2_lookup_l _ _ _ _ _ (sw_items _ _ Hwf) Hh) as (?&_&?&_). by eexists.
Qed.

(** What a deletion of the screen with [4 + f] fuel visits: the seven
    widgets, and the items as soon as [f] is positive. *)
Lemma subtree_screen s ui f :
  structure_wf s ui ->
  subtree (4 + f) ui (mScreen s) =
    [mScreen s; mMainLayout s; mTitleLabel s; mListLayout s; mScreenTransitionListView s] ++
    (match f with O => [] | S _ => list_items s ui end) ++
    [mFooterLayout s; mShowSecondScreenButton s].
Proof.
  intros Hwf. simpl (4 + f).
  rewrite (subtree_node _ _ _ _ _ (sw_screen _ _ Hwf)), fmap_cons.
  rewrite (subtree_node _ _ _ _ _ (sw_main _ _ Hwf)), !fmap_cons.
  rewrite (subtree_leaf _ _ _ _ (sw_title _ _ Hwf)).
  rewrite (subtree_node _ _ _ _ _ (sw_list_layout _ _ Hwf)), fmap_cons.
  rewrite (subtree_node _ _ _ _ _ (sw_footer _ _ Hwf)), fmap_cons.
  rewrite (subtree_leaf _ _ _ _ (sw_button _ _ Hwf)).
  rewrite (subtree_node _ _ _ _ _ (sw_list_view _ _ Hwf)).
  destruct f as [|f].
  - by rewrite subtree_zero_join.
  - rewrite (subtree_leaves _ _ _ (items_leaves _ _ Hwf)). simpl. by rewrite !app_nil_r.
Qed.

(** The listeners the destructor removes change no children. *)
Lemma set_listener_children_of h b ui x :
  children_of (snd (widget_set_listener h b ui)) x = children_of ui x.
Proof.
  unfold children_of. rewrite widget_set_listener_lookup.
  case_decide; [|done]. by destruct (ui_widgets ui !! x).
Qed.

(** The destructor removes what the deletion of the screen visits, as
    long as that holds distinct handles and the two widgets whose
    listeners it first removes. *)
Lemma delete_FirstScreen_subtree fuel s ui :
  NoDup (subtree fuel ui (mScreen s)) ->
  mShowSecondScreenButton s ∈ subtree fuel ui (mScreen s) ->
  mScreenTransitionListView s ∈ subtree fuel ui (mScreen s) ->
  removes (subtree fuel ui (mScreen s)) ui (snd (delete_FirstScreen fuel s ui)).
Proof.
  intros Hnd Hb Hlv. unfold delete_FirstScreen. rewrite !st_bind_unit.
  set (ui1 := snd (widget_set_listener (mScreenTransitionListView s) false
                     (snd (widget_set_listener (mShowSecondScreenButton s) false ui)))).
  assert (subtree fuel ui1 (mScreen s) = subtree fuel ui (mScreen s)) as Hsub.
  { apply subtree_agree. intros x _. unfold ui1. by rewrite !set_listener_children_of. }
  apply (removes_frame _ _ ui1); [done|done| |].
  - intros x Hx. unfold ui1. rewrite !widget_set_listener_lookup.
    rewrite !decide_False by (intros ->; contradiction). done.
  - rewrite <-Hsub. apply widget_destroy_removes. by rewrite Hsub.
Qed.

Lemma screen_handles_NoDup s ui : structure_wf s ui -> NoDup (screen_handles s).
Proof. intros Hwf. pose proof (sw_distinct _ _ Hwf) as (?&_&_)%NoDup_app. done. Qed.

(** With enough fuel the destructor removes exactly the screen's widgets. *)
Lemma delete_FirstScreen_removes fuel s ui :
  structure_wf s ui -> FirstScreen_depth <= fuel ->
  removes (screen_handles s ++ list_items s ui) ui (snd (delete_FirstScreen fuel s ui)).
Proof.
  intros Hwf Hf. unfold FirstScreen_depth in Hf.
  replace fuel with (4 + S (fuel - 5)) by lia.
  pose proof (subtree_screen s ui (S (fuel - 5)) Hwf) as Hsub.
  assert (subtree (4 + S (fuel - 5)) ui (mScreen s) ≡ₚ screen_handles s ++ list_items s ui)
    as Hperm by (rewrite Hsub; simpl; solve_Permutation).
  apply (removes_iff (subtree (4 + S (fuel - 5)) ui (mScreen s))); [intros x; by rewrite Hperm|].
  apply delete_FirstScreen_subtree; rewrite ?Hperm; [apply Hwf|set_solver..].
Qed.

(** C13: with fuel at least the depth of the screen's tree, the
    destructor frees exactly the screen's seven widgets and its list
    items, leaves every other widget as it was, and keeps the handle
    counter (freed handles are not reused). *)
Theorem delete_FirstScreen_frees_screen fuel s ui :
  structure_wf s ui -> FirstScreen_depth <= fuel ->
  removes (screen_handles s ++ list_items s ui) ui (snd (delete_FirstScreen fuel s ui)).
Proof. apply delete_FirstScreen_removes. Qed.

End screen.

(** ** The whole life of a screen: construction, events, destruction *)

#[local] Set Warnings "-clear-no-such-hyp".

Section lifecycle.
Context `{TransitionCatalog} {Obs : Type} `{FirstScreenObserver Obs}.
Implicit Types (s : FirstScreen) (ui : NativeUIState) (o : Obs).

(** A run keeps what the screen owns and changes nothing else. *)
Lemma run_frame s ui o es s' ui' o' :
  world_inv (s, ui, o) -> deliver_run (s, ui, o) es (s', ui', o') ->
  owned s' ui' = owned s ui /\
  forall h, h ∉ owned s ui -> ui_widgets ui' !! h = ui_widgets ui !! h.
Proof.
  intros Hinv Hrun. remember (s, ui, o) as w eqn:Hw. remember (s', ui', o') as w' eqn:Hw'.
  revert s ui o Hw Hinv. induction Hrun as [w|w e [[s1 ui1] o1] es w'' Hd Hrun IH];
    intros s ui o -> Hinv; subst.
  - by injection Hw' as -> -> ->.
  - destruct (IH eq_refl s1 ui1 o1 eq_refl (deliver_inv _ _ _ Hinv Hd)) as (Hown&Hfr).
    destruct Hinv as [[Hwf _] _].
    destruct (deliver_frame _ _ _ _ _ _ _ Hwf Hd) as (_&Hfr1).
    pose proof (deliver_keeps_owned _ _ _ _ _ _ _ Hd) as Hown1.
    split; [congruence|]. intros h Hh. rewrite Hfr by congruence. by apply Hfr1.
Qed.

(** A widget with a listener or a layout is in the store. *)
Lemma listener_in_store ui h b : listener_of ui h = Some b -> is_Some (ui_widgets ui !! h).
Proof. unfold listener_of, shape_of. by destruct (ui_widgets ui !! h). Qed.

Lemma layout_in_store ui h l : layout_of ui h = Some l -> is_Some (ui_widgets ui !! h).
Proof. unfold layout_of, shape_of. by destruct (ui_widgets ui !! h). Qed.

(** C24: construct a screen on a store whose handles are below its
    counter, deliver any run of events, destroy the screen with at least
    the depth of its tree as fuel: the widget store is then exactly the
    map it was before construction. *)
Theorem lifecycle_restores_store ui o es s' ui' o' fuel :
  ui_fresh_ok ui ->
  deliver_run (fst (new_FirstScreen ui), snd (new_FirstScreen ui), o) es (s', ui', o') ->
  FirstScreen_depth <= fuel ->
  ui_widgets (snd (delete_FirstScreen fuel s' ui')) = ui_widgets ui.
Proof.
  intros Hok Hrun Hf.
  pose proof (reachable_init ui o Hok) as Hr0.
  destruct (run_frame _ _ _ _ _ _ _ (reachable_world_inv _ Hr0) Hrun) as (Hown&Hfr).
  destruct (reachable_world_inv _ (reachable_run _ _ _ Hr0 Hrun)) as [[Hwf' _] _].
  destruct (delete_FirstScreen_removes fuel s' ui' Hwf' Hf) as (_&_&Hdel).
  apply map_eq. intros h. rewrite Hdel.
  change (screen_handles s' ++ list_items s' ui') with (owned s' ui'). rewrite Hown.
  case_decide as Hh.
  - apply new_FirstScreen_owned_iff in Hh as [Hge _]; [|done].
    symmetry. by apply fresh_lookup_None.
  - rewrite Hfr by done. destruct (decide (h < ui_next ui)%N) as [Hlt|Hge].
    + by apply new_FirstScreen_keeps.
    + rewrite (fresh_lookup_None ui h) by (done || lia).
      destruct (ui_widgets (snd (new_FirstScreen ui)) !! h) eqn:E; [|done].
      exfalso. apply Hh, new_FirstScreen_owned_iff; [done|]. split; [lia|by eexists].
Qed.

(** C25: once destroyed (with at least the depth of its tree as fuel),
    a screen is inert: any run of events the toolkit can still deliver
    (to widgets of other code that have listeners) leaves the screen, the
    store and its observer as they are. *)
Theorem delete_FirstScreen_inert s ui o fuel es w :
  structure_wf s ui -> FirstScreen_depth <= fuel ->
  deliver_run (s, snd (delete_FirstScreen fuel s ui), o) es w ->
  w = (s, snd (delete_FirstScreen fuel s ui), o).
Proof.
  intros Hwf Hf. set (ud := snd (delete_FirstScreen fuel s ui)).
  destruct (delete_FirstScreen_removes fuel s ui Hwf Hf) as (_&_&Hdel). fold ud in Hdel.
  assert (forall h, h ∈ screen_handles s -> ui_widgets ud !! h = None) as Hgone.
  { intros h Hh. rewrite Hdel, decide_True; [done|]. set_solver. }
  assert (forall e w', deliver (s, ud, o) e w' -> w' = (s, ud, o)) as Hstep.
  { intros e w' Hd. destruct e as [b|lv i].
    - inversion Hd as [? ? ? ? Hl| |]; subst. unfold buttonClicked. rewrite decide_False; [done|].
      intros ->. destruct (listener_in_store _ _ _ Hl) as [? Hb].
      rewrite Hgone in Hb; [done|]. unfold screen_handles. set_solver.
    - apply deliver_item_select in Hd as (items&item&Hlv&_&_&->).
      unfold select_item. rewrite decide_False; [done|]. intros ->.
      destruct (layout_in_store _ _ _ Hlv) as [? Hb].
      rewrite Hgone in Hb; [done|]. unfold screen_handles. set_solver. }
  intros Hrun. remember (s, ud, o) as w0 eqn:Hw0. induction Hrun as [|w0 e w1 es w2 Hd _ IH];
    [done|]. subst w0. apply Hstep in Hd as ->. by apply IH.
Qed.
End lifecycle.

(** ** Examples *)

#[local] Existing Instance demo_catalog.

Lemma delete_FirstScreen_frees_screen_witness :
  let s := fst (new_FirstScreen demo_ui) in
  let ui := snd (new_FirstScreen demo_ui) in
  removes (screen_handles s ++ list_items s ui) ui (snd (delete_FirstScreen 5 s ui)).
Proof.
  intros s ui. apply delete_FirstScreen_frees_screen;
    [apply (bool_decide_unpack _); vm_compute; reflexivity|unfold FirstScreen_depth; lia].
Defined.


Lemma lifecycle_restores_store_witness :
  ui_widgets (snd (delete_FirstScreen 5 (fst (fst demo_world1)) (snd (fst demo_world1)))) =
    ui_widgets demo_ui.
Proof.
  apply (lifecycle_restores_store demo_ui [] [ItemClick 5%N 1%Z; ButtonClick 7%N]
           (fst (fst demo_world1)) (snd (fst demo_world1))
           (buttonClicked (fst (fst demo_world1)) 7%N (snd (fst demo_world1)) []) 5).
  - apply map_Forall_empty.
  - eapply run_cons; [apply (deliver_item_first _ _ _ 5%N 1%Z [8%N; 9%N] 9%N); reflexivity|].
    eapply run_cons; [apply deliver_button; reflexivity|]. apply run_nil.
  - unfold FirstScreen_depth. lia.
Defined.

Lemma delete_FirstScreen_inert_witness :
  let s := fst (new_FirstScreen demo_shared_ui) in
  let ud := snd (delete_FirstScreen 5 s (snd (new_FirstScreen demo_shared_ui))) in
  (s, ud, buttonClicked s 1%N ud []) = (s, ud, []).
Proof.
  intros s ud.
  apply (delete_FirstScreen_inert s (snd (new_FirstScreen demo_shared_ui)) [] 5 [ButtonClick 1%N]).
  - apply (bool_decide_unpack _); vm_compute; reflexivity.
  - unfold FirstScreen_depth. lia.
  - eapply run_cons; [apply deliver_button; vm_compute; reflexivity|]. apply run_nil.
Defined.
