(* ===== verification/Spec.v ===== *)
(** * What the first screen promises, and the refinement

    An abstract specification of the screen as a user sees it: an entry
    of the platform's catalogue is selected (initially entry 0) and may
    be shown as selected; selecting an entry shows it and makes it the
    selection; pressing the button reports the code of the selected
    entry; nothing else changes anything.  [spec_step] is executable and
    refuses ([None]) a selection outside the catalogue.

    [abs_screen] reads the specification state off a screen and its
    store (the selected index, and the position of [mPreviousItem] in the
    list); [abs_event] reads a specification event off a delivered event.
    The refinement theorems: every delivered event of a reachable world is
    a step of the specification with the same report to the observer, and
    every run from construction is a run of the specification from its
    initial state, the observer receiving exactly the specification's
    reports. *)

From stdpp Require Import base gmap strings list.
From Stdlib Require Import ZArith Lia.
From S2P Require Import Prelude NativeUI Transitions Observer FirstScreen Construction Handlers Events.

Record ScreenSpec := mkSpec {
  sp_selected : Z;
  sp_shown : option nat
}.

Inductive SpecEvent :=
  | SSelect (i : nat)
  | SPress
  | SIgnore.

Definition spec_init : ScreenSpec := mkSpec 0 None.

Section spec.
Context `{TransitionCatalog}.

Definition spec_step (p : Platform) (st : ScreenSpec) (e : SpecEvent)
    : option (option MAWScreenTransitionType * ScreenSpec) :=
  match e with
  | SSelect i =>
      if decide (i < length (platform_transitions p)) then Some (None, mkSpec (Z.of_nat i) (Some i))
      else None
  | SPress => Some (Some (lookup_transition (platform_transitions p) (sp_selected st)), st)
  | SIgnore => Some (None, st)
  end.

(** A run of the specification and the codes it reports, in order. *)
Fixpoint spec_run (p : Platform) (st : ScreenSpec) (es : list SpecEvent)
    : option (list MAWScreenTransitionType * ScreenSpec) :=
  match es with
  | [] => Some ([], st)
  | e :: es' =>
      match spec_step p st e with
      | None => None
      | Some (out, st') =>
          match spec_run p st' es' with
          | None => None
          | Some (outs, st'') => Some (option_list out ++ outs, st'')
          end
      end
  end.

Definition abs_screen (s : FirstScreen) (ui : NativeUIState) : ScreenSpec :=
  mkSpec (mSelectedListItem s) (mPreviousItem s ≫= fun h => index_of h (list_items s ui)).

Definition abs_event (s : FirstScreen) (e : Event) : SpecEvent :=
  match e with
  | ButtonClick b => if decide (b = mShowSecondScreenButton s) then SPress else SIgnore
  | ItemClick lv i =>
      if decide (lv = mScreenTransitionListView s) then SSelect (Z.to_nat i) else SIgnore
  end.

Definition emit {Obs} `{FirstScreenObserver Obs} (o : Obs) (out : option MAWScreenTransitionType)
    : Obs :=
  match out with None => o | Some c => transitionSelected o c end.
End spec.

(** ** Lemmas *)

Section lemmas.
Context `{TransitionCatalog} {Obs : Type} `{FirstScreenObserver Obs}.
Implicit Types (s : FirstScreen) (ui : NativeUIState) (o : Obs).

Lemma list_items_length s ui :
  structure_wf s ui -> length (list_items s ui) = length (platform_transitions (ui_platform ui)).
Proof.
  intros Hwf. rewrite (Forall2_length _ _ _ (sw_items _ _ Hwf)).
  unfold transition_names. by rewrite length_fmap.
Qed.

Lemma emit_foldl o out outs :
  foldl transitionSelected (emit o out) outs = foldl transitionSelected o (option_list out ++ outs).
Proof. by destruct out. Qed.

(** The specification step of a click on the screen's own list. *)
Lemma select_refines s ui o lv i items item :
  world_inv (s, ui, o) -> layout_of ui lv = Some (ListView, items) ->
  zlookup items i = Some item -> lv = mScreenTransitionListView s ->
  spec_step (ui_platform ui) (abs_screen s ui) (SSelect (Z.to_nat i)) =
    Some (None, abs_screen (fst (select_item s ui lv item i)) (snd (select_item s ui lv item i))).
Proof.
  intros [[Hwf _] _] Hlv Hi Heq.
  destruct (own_list_click s ui lv i items item Hlv Hi Heq) as (_&Hrange&Hz).
  apply zlookup_Some in Hz as [_ Hz].
  unfold select_item. rewrite decide_True by done. simpl.
  rewrite decide_True by (rewrite <-(list_items_length s ui) by done; lia).
  unfold abs_screen. simpl. rewrite Z2Nat.id by lia.
  rewrite <-(ui_equiv_list_items _ _ _ (after_item_click_equiv s ui item)).
  assert (NoDup (list_items s ui)) as Hnd.
  { by pose proof (sw_distinct _ _ Hwf) as (_&_&?)%NoDup_app. }
  by rewrite (index_of_lookup _ _ _ Hnd Hz).
Qed.

(** Every delivered event of a reachable world is a step of the
    specification, with the same report to the observer. *)
Lemma deliver_step_refines s ui o e s' ui' o' :
  reachable (s, ui, o) -> deliver (s, ui, o) e (s', ui', o') ->
  exists out, spec_step (ui_platform ui) (abs_screen s ui) (abs_event s e) =
    Some (out, abs_screen s' ui') /\ o' = emit o out.
Proof.
  intros Hr Hd. pose proof (reachable_world_inv _ Hr) as Hinv. destruct e as [b|lv i].
  - inversion Hd; subst. unfold abs_event. case_decide as Hb.
    + subst b. eexists (Some _). split; [reflexivity|]. by rewrite buttonClicked_unfold.
    + exists None. split; [done|]. unfold buttonClicked. by rewrite decide_False.
  - apply deliver_item_select in Hd as (items&item&Hlv&Hi&_&Hw). injection Hw as -> -> ->.
    exists None. split; [|done]. unfold abs_event. case_decide as Heq.
    + by eapply select_refines.
    + unfold select_item. by rewrite decide_False.
Qed.

(** A run from a reachable world is a run of the specification. *)
Lemma run_refines s ui o es s' ui' o' :
  reachable (s, ui, o) -> deliver_run (s, ui, o) es (s', ui', o') ->
  exists outs, spec_run (ui_platform ui) (abs_screen s ui) (abs_event s <$> es) =
    Some (outs, abs_screen s' ui') /\ o' = foldl transitionSelected o outs.
Proof.
  intros Hr Hrun. remember (s, ui, o) as w eqn:Hw. remember (s', ui', o') as w' eqn:Hw'.
  revert s ui o Hw Hr. induction Hrun as [w|w e [[s1 ui1] o1] es w'' Hd Hrun IH];
    intros s ui o -> Hr; subst.
  - injection Hw' as -> -> ->. by exists [].
  - destruct (deliver_step_refines _ _ _ _ _ _ _ Hr Hd) as (out&Hstep&->).
    destruct (deliver_preserves _ _ _ _ _ _ _ Hd) as (Hb&Hlv&Hp).
    destruct (IH eq_refl s1 ui1 (emit o out) eq_refl (reachable_step _ _ _ Hr Hd))
      as (outs&Hrun'&->).
    exists (option_list out ++ outs). rewrite emit_foldl. split; [|done].
    assert (abs_event s1 <$> es = abs_event s <$> es) as Hev.
    { apply list_fmap_ext. intros _ [b|lv i] _; simpl; by rewrite ?Hb, ?Hlv. }
    rewrite fmap_cons. simpl. by rewrite Hstep, <-Hp, <-Hev, Hrun'.
Qed.

(** C15: the screen refines its specification: from construction, any
    run of delivered events is a run of the specification from its
    initial state on the abstracted events, ending in the abstraction of
    the final screen, and the observer receives exactly the codes the
    specification reports, in order. *)
Theorem new_FirstScreen_refines_spec ui o es s' ui' o' :
  ui_fresh_ok ui ->
  deliver_run (fst (new_FirstScreen ui), snd (new_FirstScreen ui), o) es (s', ui', o') ->
  exists outs,
    spec_run (ui_platform ui) spec_init (abs_event (fst (new_FirstScreen ui)) <$> es) =
      Some (outs, abs_screen s' ui') /\
    o' = foldl transitionSelected o outs.
Proof.
  intros Hok Hrun.
  assert (abs_screen (fst (new_FirstScreen ui)) (snd (new_FirstScreen ui)) = spec_init) as Hinit
    by (unfold abs_screen; by rewrite new_FirstScreen_fst).
  destruct (new_FirstScreen_store ui Hok) as (Hp&_).
  rewrite <-Hinit, <-Hp. eapply run_refines; [|done]. by apply reachable_init.
Qed.
End lemmas.

(** ** Examples *)

#[local] Existing Instance demo_catalog.

Lemma new_FirstScreen_refines_spec_witness :
  exists outs,
    spec_run (ui_platform demo_ui) spec_init
      (abs_event (fst (new_FirstScreen demo_ui)) <$> [ItemClick 5%N 1%Z; ButtonClick 7%N]) =
      Some (outs, abs_screen (fst (fst demo_world1)) (snd (fst demo_world1))) /\
    buttonClicked (fst (fst demo_world1)) 7%N (snd (fst demo_world1)) [] =
      foldl transitionSelected [] outs.
Proof.
  apply new_FirstScreen_refines_spec; [apply map_Forall_empty|].
  eapply run_cons; [apply (deliver_item_first _ _ _ 5%N 1%Z [8%N; 9%N] 9%N); reflexivity|].
  eapply run_cons; [apply deliver_button; reflexivity|].
  apply run_nil.
Defined.
